(** * Conversation persistence and optimistic send in chatbot9000

    A shallow embedding of the client-side chat store:
    - [LocalStorageService] and the [useChatStore] hook (src/unnamed/part_018),
    - the optimistic send flow of [useAISendMessage] driven by
      [useConversationManager] (src/src/hooks),
    - the storage transforms of [StorageService] (src/src/services/storage.ts)
      and the validation helpers of src/unnamed/part_028.

    JavaScript strings are modelled as Rocq strings (one [ascii] per code
    unit); a JavaScript [Date] as [option Z]: [Some t] is the time value [t]
    in milliseconds, [None] is an Invalid Date. *)

From Stdlib Require Import ZArith Ascii String.
From stdpp Require Import base list strings pretty gmap.

Local Open Scope Z_scope.

(** ** Data model (src/src/types/index.ts, src/unnamed/part_018) *)

Inductive MessageRole := User | Assistant.

Definition role_str (r : MessageRole) : string :=
  match r with User => "user" | Assistant => "assistant" end%string.

Definition JsDate := option Z.

Record Message := mkMessage {
  msg_id : string;
  content : string;
  role : MessageRole;
  timestamp : JsDate
}.

Record Conversation := mkConversation {
  conv_id : string;
  title : string;
  messages : list Message;
  createdAt : JsDate;
  updatedAt : JsDate
}.

(** A date field of the persisted JSON: [JSON.stringify] writes an Invalid
    Date as [null], a valid one as its ISO string. *)
Inductive JsonDate := JNull | JStr (s : string).

Record StoredMessage := mkStoredMessage {
  s_id : string;
  s_content : string;
  s_role : MessageRole;
  s_timestamp : JsonDate
}.

Record StoredConversation := mkStoredConversation {
  sc_id : string;
  sc_title : string;
  sc_messages : list StoredMessage;
  sc_createdAt : JsonDate;
  sc_updatedAt : JsonDate
}.

(** The value under the storage key: a JSON list of conversations, or text
    that [JSON.parse] rejects. A missing key is [None]. *)
Inductive Payload := PJson (l : list StoredConversation) | PCorrupt.

Definition Storage := option Payload.

(** ** Strings (src/unnamed/part_028) *)

(** Characters removed by [String.prototype.trim] in this alphabet:
    TAB, LF, VT, FF, CR, SPACE and NO-BREAK SPACE. *)
Definition is_js_space (c : ascii) : bool :=
  let n := nat_of_ascii c in
  ((9 <=? n)%nat && (n <=? 13)%nat) || (n =? 32)%nat || (n =? 160)%nat.

Fixpoint trim_start (s : string) : string :=
  match s with
  | EmptyString => EmptyString
  | String c r => if is_js_space c then trim_start r else s
  end.

Definition trim (s : string) : string :=
  String.rev (trim_start (String.rev (trim_start s))).

Definition validateMessage (content : string) : bool :=
  (0 <? String.length (trim content))%nat && (Z.of_nat (String.length content) <=? 10000).

Definition validateConversationTitle (t : string) : bool :=
  let trimmed := trim t in
  (0 <? String.length trimmed)%nat && (String.length trimmed <=? 100)%nat.

(** JavaScript truthiness of a string. *)
Definition truthy (s : string) : bool :=
  match s with EmptyString => false | _ => true end.

(** ** Deduplication on the read path (LocalStorageService.deduplicateMessages) *)

(** [`${n}`] of a time value: the decimal integer, or "NaN". *)
Definition getTime_str (d : JsDate) : string :=
  match d with None => "NaN"%string | Some t => pretty t end.

(** [`${message.role}-${message.content}-${message.timestamp.getTime()}`] *)
Definition dedup_key (m : Message) : string :=
  (role_str (role m) +:+ "-" +:+ content m +:+ "-" +:+ getTime_str (timestamp m))%string.

Fixpoint dedup_loop (seen : gset string) (ms : list Message) : list Message :=
  match ms with
  | [] => []
  | m :: rest =>
      let key := dedup_key m in
      if decide (key ∈ seen) then dedup_loop seen rest
      else m :: dedup_loop ({[key]} ∪ seen) rest
  end.

Definition deduplicateMessages (ms : list Message) : list Message :=
  dedup_loop ∅ ms.

(** The triple the dedup step is meant to identify messages by. *)
Definition msg_triple (m : Message) : MessageRole * string * JsDate :=
  (role m, content m, timestamp m).

(** ** Durable store and the service monad *)

(** Errors a service call can throw: a rejected [localStorage.setItem]
    (e.g. QuotaExceededError) or an [Error] raised by the service. *)
Inductive JsError := StorageError (e : string) | ServiceError (e : string).

Definition error_message (e : JsError) : string :=
  match e with StorageError m => m | ServiceError m => m end.

Inductive Res (A : Type) := Ok (a : A) | Err (e : JsError).
Arguments Ok {A} a.
Arguments Err {A} e.

(** An async service method: reads and writes the storage slot, may throw. *)
Definition Svc (A : Type) := Storage -> Res (A * Storage).

Definition svc_ret {A} (a : A) : Svc A := fun s => Ok (a, s).
Definition svc_bind {A B} (m : Svc A) (k : A -> Svc B) : Svc B :=
  fun s => match m s with Ok (a, s') => k a s' | Err e => Err e end.
Definition svc_throw {A} (e : JsError) : Svc A := fun _ => Err e.

Notation "'let*' x := m 'in' k" := (svc_bind m (fun x => k))
  (at level 200, x binder, m at level 100, k at level 200).

Definition getItem : Svc Storage := fun s => Ok (s, s).

(** [setItem]: [w = None] when the write is accepted, [Some e] when the
    store throws [e]. *)
Definition setItem (w : option string) (p : Payload) : Svc unit :=
  fun _ => match w with None => Ok (tt, Some p) | Some e => Err (StorageError e) end.

Definition removeItem : Svc unit := fun _ => Ok (tt, None).

(** [conversations.find(conv => conv.id === id)] *)
Fixpoint find_conv (id : string) (cs : list Conversation) : option Conversation :=
  match cs with
  | [] => None
  | c :: rest => if bool_decide (conv_id c = id) then Some c else find_conv id rest
  end.

Definition replace_conv (id : string) (c' : Conversation) (cs : list Conversation)
  : list Conversation :=
  map (fun c => if bool_decide (conv_id c = id) then c' else c) cs.

Definition with_messages (c : Conversation) (ms : list Message) (now : JsDate) :=
  mkConversation (conv_id c) (title c) ms (createdAt c) now.

Definition with_title (c : Conversation) (t : string) (now : JsDate) :=
  mkConversation (conv_id c) t (messages c) (createdAt c) now.

(** ** A concrete date codec

    The theorems below hold for any [parseDate] / [toISOString] of the
    runtime. To run the model on concrete inputs we use a codec that writes
    a time value as its decimal number of milliseconds. *)

Definition digit_val (c : ascii) : option Z :=
  let n := nat_of_ascii c in
  if ((48 <=? n)%nat && (n <=? 57)%nat) then Some (Z.of_nat n - 48) else None.

Fixpoint parse_digits (acc : Z) (s : string) : option Z :=
  match s with
  | EmptyString => Some acc
  | String c r =>
      match digit_val c with Some d => parse_digits (acc * 10 + d) r | None => None end
  end.

Definition parse_epoch_ms (s : string) : option Z :=
  match s with
  | EmptyString => None
  | String "-"%char EmptyString => None
  | String "-"%char r => option_map Z.opp (parse_digits 0 r)
  | _ => parse_digits 0 s
  end.

Definition epoch_ms_string (t : Z) : string := pretty t.

Section DateCodec.

(** The JavaScript runtime's date conversions: [new Date(s)] on a string and
    [Date.prototype.toISOString]. *)
Variable parseDate : string -> option Z.
Variable toISOString : Z -> string.

(** [new Date(x)] on a JSON date field; [new Date(null)] is the epoch. *)
Definition new_Date (j : JsonDate) : JsDate :=
  match j with JNull => Some 0 | JStr s => parseDate s end.

(** [Date.prototype.toJSON], used by [JSON.stringify]. *)
Definition date_toJSON (d : JsDate) : JsonDate :=
  match d with None => JNull | Some t => JStr (toISOString t) end.

(** ** Read and write paths (LocalStorageService.getConversations / saveConversations) *)

Definition load_message (sm : StoredMessage) : Message :=
  mkMessage (s_id sm) (s_content sm) (s_role sm) (new_Date (s_timestamp sm)).

Definition load_conversation (sc : StoredConversation) : Conversation :=
  mkConversation (sc_id sc) (sc_title sc)
    (deduplicateMessages (map load_message (sc_messages sc)))
    (new_Date (sc_createdAt sc)) (new_Date (sc_updatedAt sc)).

(** The read path: a missing key or unparseable text yields [[]]. *)
Definition load_conversations (raw : Storage) : list Conversation :=
  match raw with
  | Some (PJson l) => map load_conversation l
  | _ => []
  end.

Definition store_message (m : Message) : StoredMessage :=
  mkStoredMessage (msg_id m) (content m) (role m) (date_toJSON (timestamp m)).

Definition store_conversation (c : Conversation) : StoredConversation :=
  mkStoredConversation (conv_id c) (title c) (map store_message (messages c))
    (date_toJSON (createdAt c)) (date_toJSON (updatedAt c)).

(** [JSON.stringify(conversations)] *)
Definition stringify (cs : list Conversation) : Payload :=
  PJson (map store_conversation cs).

(** StorageService.transformStoredConversations (storage.ts): the same
    parse without the dedup step. Two payloads are value-equal when this
    transform maps them to the same conversations. *)
Definition transformStoredConversations (l : list StoredConversation) : list Conversation :=
  map (fun sc => mkConversation (sc_id sc) (sc_title sc)
                   (map load_message (sc_messages sc))
                   (new_Date (sc_createdAt sc)) (new_Date (sc_updatedAt sc))) l.

(** One load/save round trip of a JSON payload. *)
Definition roundtrip (l : list StoredConversation) : list StoredConversation :=
  map store_conversation (load_conversations (Some (PJson l))).


(** ** LocalStorageService (src/unnamed/part_018) *)

Definition getConversations : Svc (list Conversation) :=
  let* raw := getItem in svc_ret (load_conversations raw).

Definition saveConversations (w : option string) (cs : list Conversation) : Svc unit :=
  setItem w (stringify cs).

Definition conversation_title (initialMessage : option string) : string :=
  match initialMessage with
  | Some m =>
      if truthy m then
        (if (50 <? String.length m)%nat then (substring 0 47 m +:+ "...")%string else m)
      else "New Conversation"%string
  | None => "New Conversation"%string
  end.

(** [generateId()] is [newId]; both [new Date()] calls read [now]. *)
Definition createConversation (w : option string) (newId : string) (now : Z)
    (initialMessage : option string) : Svc Conversation :=
  let conversation :=
    mkConversation newId (conversation_title initialMessage) [] (Some now) (Some now) in
  let* conversations := getConversations in
  let* _ := saveConversations w (conversation :: conversations) in
  svc_ret conversation.

Definition updateConversationTitle (w : option string) (now : Z) (id t : string)
    : Svc Conversation :=
  let* conversations := getConversations in
  match find_conv id conversations with
  | None => svc_throw (ServiceError "Conversation not found")
  | Some conversation =>
      let updatedConversation := with_title conversation (trim t) (Some now) in
      let* _ := saveConversations w (replace_conv id updatedConversation conversations) in
      svc_ret updatedConversation
  end.

Definition deleteConversation (w : option string) (id : string) : Svc unit :=
  let* conversations := getConversations in
  saveConversations w (List.filter (fun c => bool_decide (conv_id c <> id)) conversations).

Definition clearConversations : Svc unit := removeItem.

Definition removeMessageFromConversation (w : option string) (now : Z)
    (conversationId messageId : string) : Svc (option Conversation) :=
  let* conversations := getConversations in
  match find_conv conversationId conversations with
  | None => svc_ret None
  | Some conversation =>
      let updatedMessages :=
        List.filter (fun m => bool_decide (msg_id m <> messageId)) (messages conversation) in
      let updatedConversation := with_messages conversation updatedMessages (Some now) in
      let* _ := saveConversations w (replace_conv conversationId updatedConversation conversations) in
      svc_ret (Some updatedConversation)
  end.

(** ** The useChatStore hook (src/unnamed/part_018) *)

Record StoreState := mkStoreState {
  conversations : list Conversation;
  isLoading : bool;
  error : option string;
  storage : Storage
}.

Definition set_error (st : StoreState) (e : string) : StoreState :=
  mkStoreState (conversations st) (isLoading st) (Some e) (storage st).

(** [try { const r = await svc; setConversations(prev => apply r prev) }
     catch (err) { setError(createErrorMessage(err)) }] *)
Definition hook_run {A} (svc : Svc A) (apply : A -> list Conversation -> list Conversation)
    (st : StoreState) : StoreState * Res A :=
  match svc (storage st) with
  | Ok (a, s') => (mkStoreState (apply a (conversations st)) (isLoading st) (error st) s', Ok a)
  | Err e => (set_error st (error_message e), Err e)
  end.

(** The mount effect: [getConversations] never throws. *)
Definition hook_load (st : StoreState) : StoreState :=
  mkStoreState (load_conversations (storage st)) false None (storage st).

(** [createConversation] also rethrows: the [Res] is what the caller sees. *)
Definition hook_createConversation (w : option string) (newId : string) (now : Z)
    (initialMessage : option string) (st : StoreState) : StoreState * Res Conversation :=
  hook_run (createConversation w newId now initialMessage) (fun c prev => c :: prev) st.

(** [updateConversation] writes the list of its render ([conversations]). *)
Definition hook_updateConversation (w : option string) (updatedConv : Conversation)
    (st : StoreState) : StoreState :=
  fst (hook_run
         (saveConversations w (replace_conv (conv_id updatedConv) updatedConv (conversations st)))
         (fun _ prev => replace_conv (conv_id updatedConv) updatedConv prev) st).

Definition hook_updateConversationTitle (w : option string) (now : Z) (id t : string)
    (st : StoreState) : StoreState :=
  fst (hook_run (updateConversationTitle w now id t) (fun c prev => replace_conv id c prev) st).

Definition hook_deleteConversation (w : option string) (id : string) (st : StoreState)
    : StoreState :=
  fst (hook_run (deleteConversation w id)
         (fun _ prev => List.filter (fun c => bool_decide (conv_id c <> id)) prev) st).

Definition hook_clearHistory (st : StoreState) : StoreState :=
  fst (hook_run clearConversations (fun _ _ => []) st).

Definition hook_removeMessage (w : option string) (now : Z) (conversationId messageId : string)
    (st : StoreState) : StoreState :=
  fst (hook_run (removeMessageFromConversation w now conversationId messageId)
         (fun r prev => match r with
                        | Some c => replace_conv conversationId c prev
                        | None => prev
                        end) st).

(** The mutating operations of the hook, with [w] the outcome of the
    durable-store write and [now] the clock. *)
Inductive StoreOp :=
| OpCreate (newId : string) (initialMessage : option string)
| OpUpdate (c : Conversation)
| OpRename (id t : string)
| OpDelete (id : string)
| OpClear
| OpRemoveMessage (conversationId messageId : string).

Definition run_op (w : option string) (now : Z) (op : StoreOp) (st : StoreState) : StoreState :=
  match op with
  | OpCreate newId im => fst (hook_createConversation w newId now im st)
  | OpUpdate c => hook_updateConversation w c st
  | OpRename id t => hook_updateConversationTitle w now id t st
  | OpDelete id => hook_deleteConversation w id st
  | OpClear => hook_clearHistory st
  | OpRemoveMessage cid mid => hook_removeMessage w now cid mid st
  end.

(** ** Optimistic send (useAISendMessage with the callbacks of useConversationManager) *)

Inductive Completion := CompletionOk (response : string) | CompletionErr (msg : string).




(** ** Well-formedness of persisted data *)

(** A JSON date field whose parsed instant survives [toISOString] and a
    second parse. *)
Definition date_roundtrips (j : JsonDate) : bool :=
  match new_Date j with
  | Some t => bool_decide (parseDate (toISOString t) = Some t)
  | None => false
  end.

(** A message whose timestamp is a valid date that survives a save/load. *)
Definition message_date_roundtrips (m : Message) : bool :=
  match timestamp m with
  | Some t => bool_decide (parseDate (toISOString t) = Some t)
  | None => false
  end.

Definition valid_stored_conversation (sc : StoredConversation) : bool :=
  date_roundtrips (sc_createdAt sc) && date_roundtrips (sc_updatedAt sc)
  && forallb (fun sm => date_roundtrips (s_timestamp sm)) (sc_messages sc)
  && bool_decide (NoDup (map dedup_key (map load_message (sc_messages sc)))).

Definition valid_payload (l : list StoredConversation) : bool :=
  forallb valid_stored_conversation l.

End DateCodec.

(** ** Input normalisation (src/unnamed/part_028) *)

(** [s.replace(/\s+/g, ' ')]: each maximal run of whitespace becomes one
    space; [in_run] holds inside a run whose space was already written. In
    this alphabet [\s] is the set [is_js_space] that [trim] removes. *)
Fixpoint collapse_ws (in_run : bool) (s : string) : string :=
  match s with
  | EmptyString => EmptyString
  | String c r =>
      if is_js_space c then
        (if in_run then collapse_ws true r else String " " (collapse_ws true r))
      else String c (collapse_ws false r)
  end.

Definition sanitizeInput (input : string) : string := collapse_ws false (trim input).

(** Whitespace of [s] is single spaces only, none right after a
    whitespace character (or, with [prev_space], at the start). *)
Fixpoint single_spaced (prev_space : bool) (s : string) : bool :=
  match s with
  | EmptyString => true
  | String c r =>
      if is_js_space c then negb prev_space && bool_decide (c = " "%char) && single_spaced true r
      else single_spaced false r
  end.

(** ** Callers of the input helpers *)

(** The part of [useSidebarState] (src/unnamed/part_023) that renames. *)
Record SidebarState := mkSidebarState {
  editingId : option string;
  editTitle : string
}.

(** [handleSaveEdit(onRename)]: the next state and the [onRename] call made. *)
Definition handleSaveEdit (st : SidebarState) : SidebarState * option (string * string) :=
  match editingId st with
  | Some id =>
      if truthy id && truthy (trim (editTitle st)) then
        let sanitizedTitle := sanitizeInput (editTitle st) in
        if validateConversationTitle sanitizedTitle
        then (mkSidebarState None "", Some (id, sanitizedTitle))
        else (st, None)
      else (st, None)
  | None => (st, None)
  end.

(** [InputBar.handleSend] (src/unnamed/part_009): the next input and the
    [onSend] call made. *)
Definition handleSend (isLoading : bool) (input : string) : string * option string :=
  let sanitized := sanitizeInput input in
  if validateMessage sanitized && negb isLoading then (""%string, Some sanitized)
  else (input, None).

(** ** StorageService (src/src/services/storage.ts) *)

Module StorageService.
Section Codec.

Variable parseDate : string -> option Z.
Variable toISOString : Z -> string.

(** [date.toISOString()] throws a RangeError on an Invalid Date. *)
Definition iso_string (d : JsDate) : option string :=
  match d with Some t => Some (toISOString t) | None => None end.

Definition transformMessageForStorage (m : Message) : option StoredMessage :=
  match iso_string (timestamp m) with
  | Some ts => Some (mkStoredMessage (msg_id m) (content m) (role m) (JStr ts))
  | None => None
  end.

Fixpoint transformMessagesForStorage (ms : list Message) : option (list StoredMessage) :=
  match ms with
  | [] => Some []
  | m :: rest =>
      match transformMessageForStorage m, transformMessagesForStorage rest with
      | Some sm, Some srest => Some (sm :: srest)
      | _, _ => None
      end
  end.

Definition transformConversationForStorage (c : Conversation) : option StoredConversation :=
  match iso_string (createdAt c), iso_string (updatedAt c), transformMessagesForStorage (messages c) with
  | Some ca, Some ua, Some sms => Some (mkStoredConversation (conv_id c) (title c) sms (JStr ca) (JStr ua))
  | _, _, _ => None
  end.

Fixpoint transformConversationsForStorage (cs : list Conversation)
    : option (list StoredConversation) :=
  match cs with
  | [] => Some []
  | c :: rest =>
      match transformConversationForStorage c, transformConversationsForStorage rest with
      | Some sc, Some srest => Some (sc :: srest)
      | _, _ => None
      end
  end.

(** [try { ... } catch (error) { throw new Error(msg) }] *)
Definition svc_rethrow {A} (msg : string) (m : Svc A) : Svc A :=
  fun s => match m s with Ok r => Ok r | Err _ => Err (ServiceError msg) end.

(** No dedup step on this read path. *)
Definition getConversations : Svc (list Conversation) :=
  let* stored := getItem in
  svc_ret (match stored with
           | Some (PJson l) => transformStoredConversations parseDate l
           | _ => []
           end).

Definition saveConversations (w : option string) (cs : list Conversation) : Svc unit :=
  svc_rethrow "Failed to save conversations"
    (match transformConversationsForStorage cs with
     | Some storedConversations => setItem w (PJson storedConversations)
     | None => svc_throw (ServiceError "Invalid time value")
     end).

Definition clearConversations : Svc unit :=
  svc_rethrow "Failed to clear conversations" removeItem.

Definition getConversation (id : string) : Svc (option Conversation) :=
  let* conversations := getConversations in
  svc_ret (find_conv id conversations).

(** Every date of [c] is valid and survives [toISOString] and a parse. *)
Definition conversation_dates_roundtrip (c : Conversation) : bool :=
  match createdAt c, updatedAt c with
  | Some ca, Some ua =>
      bool_decide (parseDate (toISOString ca) = Some ca) &&
      bool_decide (parseDate (toISOString ua) = Some ua) &&
      forallb (message_date_roundtrips parseDate toISOString) (messages c)
  | _, _ => false
  end.

End Codec.
End StorageService.

(** ** ChatApiService (src/src/api/chat.ts) *)

Module ChatApiService.
Section Codec.

Variable parseDate : string -> option Z.
Variable toISOString : Z -> string.

(** [loadConversations]: the read path of LocalStorageService, with dedup. *)
Definition loadConversations : Svc (list Conversation) :=
  let* stored := getItem in svc_ret (load_conversations parseDate stored).

(** [storeConversations]: a rejected [setItem] is logged and swallowed. *)
Definition storeConversations (w : option string) (conversations : list Conversation) : Svc unit :=
  fun s => match setItem w (stringify toISOString conversations) s with
           | Ok r => Ok r
           | Err _ => Ok (tt, s)
           end.

(** An assignment through the object [find] (or [findIndex]) returned:
    only the first conversation with that id changes. *)
Fixpoint update_first (id : string) (f : Conversation -> Conversation) (cs : list Conversation)
    : list Conversation :=
  match cs with
  | [] => []
  | c :: rest => if bool_decide (conv_id c = id) then f c :: rest else c :: update_first id f rest
  end.

(** [getLLMResponse] through [request]: any failure is rethrown as
    "API request failed: ..." with the underlying message. *)
Definition getLLMResponse (completion : Completion) : Svc string :=
  match completion with
  | CompletionOk r => svc_ret r
  | CompletionErr e => svc_throw (ServiceError ("API request failed: " +:+ e))
  end.

Definition addUserMessage (w : option string) (now : Z) (userMessage : Message)
    (conversationId : string) : Svc Message :=
  let* conversations := loadConversations in
  match find_conv conversationId conversations with
  | None => svc_throw (ServiceError "Conversation not found")
  | Some _ =>
      let* _ := storeConversations w
                  (update_first conversationId
                     (fun c => with_messages c (messages c ++ [userMessage]) (Some now))
                     conversations) in
      svc_ret userMessage
  end.

(** [sendMessage(content, conversationId?)]: [completion] is the backend's
    answer for [content]; [aiId] and [t_msg], [t_conv] are the fresh id and
    the two clock readings. *)
Definition sendMessage (w : option string) (aiId : string) (t_msg t_conv : Z)
    (completion : Completion) (content : string) (conversationId : option string)
    : Svc Message :=
  let* aiResponse := getLLMResponse completion in
  let aiMessage := mkMessage aiId aiResponse Assistant (Some t_msg) in
  match conversationId with
  | Some cid =>
      if truthy cid then
        let* conversations := loadConversations in
        match find_conv cid conversations with
        | Some _ =>
            let* _ := storeConversations w
                        (update_first cid
                           (fun c => with_messages c (messages c ++ [aiMessage]) (Some t_conv))
                           conversations) in
            svc_ret aiMessage
        | None => svc_ret aiMessage
        end
      else svc_ret aiMessage
  | None => svc_ret aiMessage
  end.

Definition getConversations : Svc (list Conversation) := loadConversations.

Definition getConversation (id : string) : Svc (option Conversation) :=
  let* conversations := loadConversations in
  svc_ret (find_conv id conversations).

(** [w1] is the outcome of the first write, [w2] of the one in [sendMessage]. *)
Definition createConversation (w1 w2 : option string) (newId : string) (now : Z)
    (aiId : string) (t_msg t_conv : Z) (completion : Completion)
    (initialMessage : option string) : Svc Conversation :=
  let conversation :=
    mkConversation newId (conversation_title initialMessage) [] (Some now) (Some now) in
  let* conversations := loadConversations in
  let* _ := storeConversations w1 (conversations ++ [conversation]) in
  match initialMessage with
  | Some m =>
      if truthy m then
        let* _ := sendMessage w2 aiId t_msg t_conv completion m (Some newId) in
        let* updated := getConversation newId in
        svc_ret (match updated with Some u => u | None => conversation end)
      else svc_ret conversation
  | None => svc_ret conversation
  end.

Definition updateConversation (w : option string) (now : Z) (updatedConversation : Conversation)
    : Svc Conversation :=
  let* conversations := loadConversations in
  match find_conv (conv_id updatedConversation) conversations with
  | None => svc_throw (ServiceError "Conversation not found")
  | Some old =>
      let c' := with_title old (title updatedConversation) (Some now) in
      let* _ := storeConversations w
                  (update_first (conv_id updatedConversation) (fun _ => c') conversations) in
      svc_ret c'
  end.

Definition updateConversationTitle (w : option string) (now : Z) (id t : string)
    : Svc Conversation :=
  let* conversations := loadConversations in
  match find_conv id conversations with
  | None => svc_throw (ServiceError "Conversation not found")
  | Some conversation =>
      let c' := with_title conversation t (Some now) in
      let* _ := storeConversations w (update_first id (fun _ => c') conversations) in
      svc_ret c'
  end.

Definition deleteConversation (w : option string) (id : string) : Svc unit :=
  let* conversations := loadConversations in
  storeConversations w (List.filter (fun c => bool_decide (conv_id c <> id)) conversations).

Definition saveConversations (w : option string) (conversations : list Conversation) : Svc unit :=
  storeConversations w conversations.

Definition clearConversations : Svc unit := removeItem.

End Codec.
End ChatApiService.

(** A write's effect dropped: the call's result with the store left at [raw]. *)
Definition drop_write {A} (r : Res (A * Storage)) (raw : Storage) : Res (A * Storage) :=
  match r with Ok (a, _) => Ok (a, raw) | Err e => Err e end.

(** ** Concrete states *)

Definition fx_msg : Message := mkMessage "m0" "hello" User (Some 1).
Definition fx_conv : Conversation := mkConversation "c" "Greeting" [fx_msg] (Some 0) (Some 1).
Definition fx_payload : list StoredConversation := [store_conversation epoch_ms_string fx_conv].
Definition fx_state : StoreState :=
  mkStoreState [fx_conv] false None (Some (PJson fx_payload)).
Definition fx_renamed : Conversation := with_title fx_conv "Renamed" (Some 5).


(** Two messages that differ only in the split of "a-" and the sign of the
    time value (5 ms before and after the epoch). *)
Definition fx_neg : Message := mkMessage "1" "a" User (Some (-5)).
Definition fx_pos : Message := mkMessage "2" "a-" User (Some 5).

(** A payload left by an earlier write bug: the same message twice under
    different ids. *)
Definition fx_dup_triple_payload : list StoredConversation :=
  [mkStoredConversation "c" "t"
     [mkStoredMessage "m1" "x" User (JStr "7"); mkStoredMessage "m2" "x" User (JStr "7")]
     (JStr "0") (JStr "7")].

(** A payload with one id used twice. *)
Definition fx_dup_id_payload : list StoredConversation :=
  [mkStoredConversation "c" "t"
     [mkStoredMessage "m" "x" User (JStr "1"); mkStoredMessage "m" "y" User (JStr "2")]
     (JStr "0") (JStr "2")].

Definition fx_sidebar : SidebarState := mkSidebarState (Some "c") "  Renamed   chat ".
Definition fx_bad : Conversation := mkConversation "b" "Bad" [] None (Some 1).

Ltac discharge :=
  first [ reflexivity
        | discriminate
        | (vm_compute; reflexivity)
        | (match goal with |- ?P => apply (bool_decide_eq_true_1 P) end; vm_compute; reflexivity)
        | (simpl; intuition discriminate) ].

(** * Proofs *)

Section Proofs.

Variable parseDate : string -> option Z.
Variable toISOString : Z -> string.

Local Abbreviation load := (load_conversations parseDate).
Local Abbreviation stringifyD := (stringify toISOString).

(** ** The dedup loop *)

Lemma dedup_loop_keys (l : list Message) : forall seen,
  NoDup (map dedup_key (dedup_loop seen l)) /\
  (forall m, In m (dedup_loop seen l) -> dedup_key m ∉ seen).
Proof.
  induction l as [|m rest IH]; intros seen; simpl.
  - split; [constructor | tauto].
  - case_decide as Hin.
    + apply IH.
    + destruct (IH ({[dedup_key m]} ∪ seen)) as [Hnd Hout].
      split.
      * constructor; [|exact Hnd].
        intros Hk. apply list_elem_of_In, in_map_iff in Hk as (m' & Hkey & Hm').
        apply (Hout m' Hm'). rewrite Hkey. set_solver.
      * intros m' [<-|Hm']; [exact Hin|].
        specialize (Hout m' Hm'). set_solver.
Qed.

Lemma dedup_loop_incl (l : list Message) : forall seen m,
  In m (dedup_loop seen l) -> In m l.
Proof.
  induction l as [|x rest IH]; intros seen m; simpl; [tauto|].
  case_decide.
  - intros Hm. right. exact (IH _ _ Hm).
  - intros [<-|Hm]; [left; reflexivity | right; exact (IH _ _ Hm)].
Qed.

Lemma dedup_loop_ids (l : list Message) : forall seen,
  NoDup (map msg_id l) -> NoDup (map msg_id (dedup_loop seen l)).
Proof.
  induction l as [|x rest IH]; intros seen Hnd; simpl in *; [constructor|].
  inversion Hnd as [|? ? Hx Hrest]; subst.
  case_decide; [apply IH; exact Hrest|].
  simpl. constructor; [|apply IH; exact Hrest].
  intros Hk. apply list_elem_of_In, in_map_iff in Hk as (m' & Hid & Hm').
  apply Hx. apply list_elem_of_In, in_map_iff. exists m'. split; [exact Hid|].
  exact (dedup_loop_incl _ _ _ Hm').
Qed.


Lemma dedup_loop_nodup (l : list Message) : forall seen,
  NoDup (map dedup_key l) ->
  (forall m, In m l -> dedup_key m ∉ seen) ->
  dedup_loop seen l = l.
Proof.
  induction l as [|m rest IH]; intros seen Hnd Hout; simpl in *; [reflexivity|].
  inversion Hnd as [|? ? Hm Hrest]; subst.
  case_decide as Hin; [exfalso; exact (Hout m (or_introl eq_refl) Hin)|].
  f_equal. apply IH; [exact Hrest|].
  intros m' Hm'. specialize (Hout m' (or_intror Hm')).
  assert (dedup_key m' <> dedup_key m).
  { intros E. apply Hm. rewrite <- E. apply list_elem_of_In, in_map. exact Hm'. }
  set_solver.
Qed.

(** The key is a function of the triple. *)
Lemma dedup_key_triple (m : Message) :
  dedup_key m =
  (let '(r, c, d) := msg_triple m in
   role_str r +:+ "-" +:+ c +:+ "-" +:+ getTime_str d)%string.
Proof. reflexivity. Qed.

Lemma nodup_key_nodup_triple (l : list Message) :
  NoDup (map dedup_key l) -> NoDup (map msg_triple l).
Proof.
  induction l as [|m rest IH]; simpl; intros Hnd; [constructor|].
  inversion Hnd as [|? ? Hm Hrest]; subst.
  constructor; [|exact (IH Hrest)].
  intros Hin. apply Hm.
  apply list_elem_of_In, in_map_iff in Hin as (m' & Ht & Hm').
  apply list_elem_of_In, in_map_iff. exists m'. split; [|exact Hm'].
  rewrite !dedup_key_triple, Ht. reflexivity.
Qed.

(** ** C3: the read path returns message lists without repeated triples *)

(** C3: for every stored payload, each conversation returned by the read
    path (getConversations) has a message list in which no two messages
    share the same (role, content, timestamp) triple. *)
Theorem load_conversations_no_duplicate_triples (raw : Storage) (c : Conversation) :
  In c (load raw) -> NoDup (map msg_triple (messages c)).
Proof.
  unfold load_conversations.
  destruct raw as [[l|]|]; simpl; try tauto.
  intros Hc. apply in_map_iff in Hc as (sc & <- & _).
  simpl. apply nodup_key_nodup_triple.
  apply (proj1 (dedup_loop_keys _ ∅)).
Qed.

(** ** Round trips through the read path *)

Lemma map_msg_id_load (ms : list StoredMessage) :
  map msg_id (map (load_message parseDate) ms) = map s_id ms.
Proof. rewrite map_map. reflexivity. Qed.

Lemma map_s_id_store (ms : list Message) :
  map s_id (map (store_message toISOString) ms) = map msg_id ms.
Proof. rewrite map_map. reflexivity. Qed.

Lemma load_payload_ids (l : list StoredConversation) :
  (forall sc, In sc l -> NoDup (map s_id (sc_messages sc))) ->
  forall c, In c (load (Some (PJson l))) -> NoDup (map msg_id (messages c)).
Proof.
  intros Hl c Hc. simpl in Hc.
  apply in_map_iff in Hc as (sc & <- & Hsc). simpl.
  apply dedup_loop_ids. rewrite map_msg_id_load. exact (Hl sc Hsc).
Qed.

Lemma roundtrip_ids (l : list StoredConversation) :
  (forall sc, In sc l -> NoDup (map s_id (sc_messages sc))) ->
  forall sc, In sc (roundtrip parseDate toISOString l) -> NoDup (map s_id (sc_messages sc)).
Proof.
  intros Hl sc Hsc. unfold roundtrip in Hsc.
  apply in_map_iff in Hsc as (c & <- & Hc). simpl.
  rewrite map_s_id_store. exact (load_payload_ids l Hl c Hc).
Qed.

(** ** C4: id uniqueness across load/save round trips *)

(** C4 (amended): the read path never makes two messages share an id: if
    every conversation of the stored payload has pairwise distinct message
    ids, then after any number [n] of load/save round trips every loaded
    conversation still has pairwise distinct message ids. *)
Theorem roundtrips_preserve_unique_ids (n : nat) (l : list StoredConversation)
    (Hl : forall sc, In sc l -> NoDup (map s_id (sc_messages sc))) :
  forall c, In c (load (Some (PJson (Nat.iter n (roundtrip parseDate toISOString) l)))) ->
            NoDup (map msg_id (messages c)).
Proof.
  apply load_payload_ids.
  induction n as [|n IH]; simpl; [exact Hl|].
  apply roundtrip_ids. exact IH.
Qed.

Lemma new_Date_toJSON (j : JsonDate) :
  date_roundtrips parseDate toISOString j = true ->
  new_Date parseDate (date_toJSON toISOString (new_Date parseDate j)) = new_Date parseDate j.
Proof.
  unfold date_roundtrips. destruct (new_Date parseDate j) as [t|]; [|discriminate].
  intros Ht. apply bool_decide_eq_true in Ht. exact Ht.
Qed.

Lemma load_store_load_message (sm : StoredMessage) :
  date_roundtrips parseDate toISOString (s_timestamp sm) = true ->
  load_message parseDate (store_message toISOString (load_message parseDate sm)) =
  load_message parseDate sm.
Proof.
  intros Ht. unfold load_message at 1. simpl.
  rewrite (new_Date_toJSON _ Ht). reflexivity.
Qed.

Lemma load_store_load_messages (ms : list StoredMessage) :
  forallb (fun sm => date_roundtrips parseDate toISOString (s_timestamp sm)) ms = true ->
  map (load_message parseDate) (map (store_message toISOString) (map (load_message parseDate) ms)) =
  map (load_message parseDate) ms.
Proof.
  induction ms as [|sm rest IH]; simpl; [reflexivity|].
  intros Hall. apply andb_true_iff in Hall as [Hsm Hrest].
  rewrite (load_store_load_message sm Hsm), (IH Hrest). reflexivity.
Qed.

(** ** C9: serialize after deserialize *)

(** C9 (amended): for every persisted payload whose date fields all parse to
    instants that survive [toISOString], and whose conversations hold no two
    messages with the same dedup key, serializing the read path's result
    reproduces the payload: same fields, dates equal after parse. *)
Theorem serialize_deserialize_valid (l : list StoredConversation)
    (Hvalid : valid_payload parseDate toISOString l = true) :
  transformStoredConversations parseDate (roundtrip parseDate toISOString l) =
  transformStoredConversations parseDate l.
Proof.
  unfold roundtrip, transformStoredConversations. simpl.
  rewrite !map_map. apply map_ext_in. intros sc Hin.
  unfold valid_payload in Hvalid. rewrite forallb_forall in Hvalid.
  specialize (Hvalid sc Hin). unfold valid_stored_conversation in Hvalid.
  apply andb_true_iff in Hvalid as [Hsc Hnd].
  apply andb_true_iff in Hsc as [Hsc Hms].
  apply andb_true_iff in Hsc as [Hc Hu].
  apply bool_decide_eq_true in Hnd.
  simpl. unfold deduplicateMessages.
  rewrite (dedup_loop_nodup _ ∅ Hnd) by set_solver.
  rewrite (load_store_load_messages _ Hms), (new_Date_toJSON _ Hc), (new_Date_toJSON _ Hu).
  reflexivity.
Qed.

(** ** Lookup and replacement in the conversation list *)

Lemma find_conv_id (id : string) (l : list Conversation) (c : Conversation) :
  find_conv id l = Some c -> conv_id c = id.
Proof.
  induction l as [|x rest IH]; simpl; [discriminate|].
  case_bool_decide; [intros [= <-]; assumption | exact IH].
Qed.

Lemma find_conv_replace (id : string) (l : list Conversation) (c c' : Conversation) :
  find_conv id l = Some c -> conv_id c' = id ->
  find_conv id (replace_conv id c' l) = Some c'.
Proof.
  intros Hf Hid. induction l as [|x rest IH]; simpl in *; [discriminate|].
  case_bool_decide as Hx; simpl.
  - rewrite bool_decide_eq_true_2 by exact Hid. reflexivity.
  - rewrite bool_decide_eq_false_2 by exact Hx. exact (IH Hf).
Qed.

Lemma find_conv_replace_same_id (id : string) (l : list Conversation) (c c' : Conversation) :
  find_conv id l = Some c -> conv_id c' = conv_id c ->
  find_conv id (replace_conv (conv_id c') c' l) = Some c'.
Proof.
  intros Hf Hid. pose proof (find_conv_id _ _ _ Hf) as Hc.
  rewrite Hid, Hc. apply (find_conv_replace _ _ c); [exact Hf | congruence].
Qed.

Lemma find_conv_map (f : Conversation -> Conversation) (id : string) (l : list Conversation) :
  (forall x, conv_id (f x) = conv_id x) ->
  find_conv id (map f l) = option_map f (find_conv id l).
Proof.
  intros Hf. induction l as [|x rest IH]; simpl; [reflexivity|].
  rewrite Hf. case_bool_decide; [reflexivity | exact IH].
Qed.

Lemma load_stringify (l : list Conversation) :
  load (Some (stringifyD l)) =
  map (fun c => load_conversation parseDate (store_conversation toISOString c)) l.
Proof. simpl. rewrite map_map. reflexivity. Qed.







(** ** C2: a successful send appends the user message and the reply *)


(** ** C1: rollback after a failed completion *)


(** ** C5: renaming a conversation *)

(** C5 (amended): [updateConversationTitle(id, title)] fails with
    "Conversation not found" when the stored list has no conversation with
    that id; otherwise, when the write succeeds, it stores and returns the
    conversation with the trimmed title, whatever its length, and
    [updatedAt] set to now. *)
Theorem updateConversationTitle_spec (w : option string) (now : Z) (id t : string)
    (raw : Storage) :
  (find_conv id (load raw) = None ->
   updateConversationTitle parseDate toISOString w now id t raw =
   Err (ServiceError "Conversation not found")) /\
  (forall c, find_conv id (load raw) = Some c ->
   let c' := with_title c (trim t) (Some now) in
   updateConversationTitle parseDate toISOString None now id t raw =
   Ok (c', Some (stringifyD (replace_conv id c' (load raw))))).
Proof.
  split.
  - intros Hn. unfold updateConversationTitle, svc_bind, getConversations, svc_bind,
      getItem, svc_ret. rewrite Hn. reflexivity.
  - intros c Hc. unfold updateConversationTitle, svc_bind, getConversations, svc_bind,
      getItem, svc_ret. rewrite Hc. reflexivity.
Qed.

(** ** C6: removing a message *)

(** C6 (amended): [removeMessage(conversationId, messageId)] leaves the whole
    store state unchanged when the stored list has no conversation with that
    id; otherwise, when the write succeeds, the conversation (as stored) gets
    its messages without those of id [messageId] and [updatedAt] set to now,
    also when no message has that id, in memory and in the store. *)
Theorem removeMessage_spec (w : option string) (now : Z) (cid mid : string)
    (st : StoreState) :
  (find_conv cid (load (storage st)) = None ->
   hook_removeMessage parseDate toISOString w now cid mid st = st) /\
  (forall c, find_conv cid (load (storage st)) = Some c ->
   let c' := with_messages c
               (List.filter (fun m => bool_decide (msg_id m <> mid)) (messages c)) (Some now) in
   hook_removeMessage parseDate toISOString None now cid mid st =
   mkStoreState (replace_conv cid c' (conversations st)) (isLoading st) (error st)
     (Some (stringifyD (replace_conv cid c' (load (storage st)))))).
Proof.
  split.
  - intros Hn. unfold hook_removeMessage, hook_run, removeMessageFromConversation,
      svc_bind, getConversations, svc_bind, getItem, svc_ret. rewrite Hn.
    destruct st; reflexivity.
  - intros c Hc. unfold hook_removeMessage, hook_run, removeMessageFromConversation,
      svc_bind, getConversations, svc_bind, getItem, svc_ret. rewrite Hc.
    reflexivity.
Qed.

(** ** C7: failed durable-store writes *)

(** C7 (amended): when the durable store rejects the write with error [e],
    no operation other than clearHistory (which only removes the key)
    changes the in-memory list or the durable store. Each operation that
    reaches the write records [e] as the store's error: createConversation,
    updateConversation and deleteConversation always, updateConversationTitle
    and removeMessage when the conversation exists. createConversation also
    rethrows [e] to its caller. A rename of a missing conversation records
    "Conversation not found", and a removal from a missing conversation
    changes nothing. *)
Theorem failed_write_keeps_memory (st : StoreState) (now : Z) (e : string) :
  (forall op, op <> OpClear ->
     conversations (run_op parseDate toISOString (Some e) now op st) = conversations st /\
     storage (run_op parseDate toISOString (Some e) now op st) = storage st) /\
  (forall newId im,
     hook_createConversation parseDate toISOString (Some e) newId now im st =
     (set_error st e, Err (StorageError e))) /\
  (forall c, hook_updateConversation toISOString (Some e) c st = set_error st e) /\
  (forall id, hook_deleteConversation parseDate toISOString (Some e) id st = set_error st e) /\
  (forall id t,
     hook_updateConversationTitle parseDate toISOString (Some e) now id t st =
     set_error st (match find_conv id (load (storage st)) with
                   | Some _ => e
                   | None => "Conversation not found"%string
                   end)) /\
  (forall cid mid,
     hook_removeMessage parseDate toISOString (Some e) now cid mid st =
     match find_conv cid (load (storage st)) with
     | Some _ => set_error st e
     | None => st
     end).
Proof.
  split; [|split; [|split; [|split; [|split]]]].
  - intros op Hop. destruct op as [newId im | c | id t | id | | cid mid]; simpl;
      unfold hook_createConversation, hook_updateConversation, hook_updateConversationTitle,
        hook_deleteConversation, hook_removeMessage, hook_run;
      unfold createConversation, updateConversationTitle, deleteConversation,
        removeMessageFromConversation, saveConversations, svc_bind, getConversations,
        getItem, svc_ret, svc_throw, setItem; simpl.
    + auto.
    + auto.
    + destruct (find_conv id (load (storage st))); simpl; auto.
    + auto.
    + contradiction.
    + destruct (find_conv cid (load (storage st))); simpl; auto.
  - intros newId im. reflexivity.
  - intros c. reflexivity.
  - intros id. reflexivity.
  - intros id t.
    unfold hook_updateConversationTitle, hook_run, updateConversationTitle, saveConversations,
      getConversations, svc_bind, getConversations, getItem, svc_ret, svc_throw, setItem.
    destruct (find_conv id (load (storage st))); reflexivity.
  - intros cid mid.
    unfold hook_removeMessage, hook_run, removeMessageFromConversation, saveConversations,
      getConversations, svc_bind, getConversations, getItem, svc_ret, setItem.
    destruct (find_conv cid (load (storage st))); [reflexivity | destruct st; reflexivity].
Qed.

(** ** Prefixes of strings *)

Lemma string_append_length (a b : string) :
  String.length (a +:+ b) = (String.length a + String.length b)%nat.
Proof. induction a as [|ch a IH]; simpl; [reflexivity | rewrite IH; reflexivity]. Qed.

Lemma substring0_length (k : nat) (s : string) :
  (k <= String.length s)%nat -> String.length (substring 0 k s) = k.
Proof.
  revert k. induction s as [|ch s IH]; intros [|k] Hk; simpl in *; try lia.
  rewrite IH by lia. reflexivity.
Qed.

Lemma substring0_append (k : nat) (a b : string) :
  (k <= String.length a)%nat -> substring 0 k (a +:+ b) = substring 0 k a.
Proof.
  revert k. induction a as [|ch a IH]; intros [|k] Hk; simpl in *; try lia.
  - destruct b; reflexivity.
  - reflexivity.
  - rewrite IH by lia. reflexivity.
Qed.

Lemma substring0_idem (k : nat) (s : string) :
  substring 0 k (substring 0 k s) = substring 0 k s.
Proof.
  revert k. induction s as [|ch s IH]; intros [|k]; simpl; try reflexivity.
  rewrite IH. reflexivity.
Qed.

Lemma substring_after_prefix (k : nat) (a b : string) :
  substring (String.length a) k (a +:+ b) = substring 0 k b.
Proof. induction a as [|ch a IH]; simpl; [reflexivity | exact IH]. Qed.

(** ** C8: the title of a new conversation *)

(** C8 (amended): [createConversation(initialMessage)] creates an empty
    conversation, stored at the front of the list, whose title is
    [initialMessage] when it is non-empty and at most 50 characters long; a
    50-character string made of its first 47 characters and "..." when it
    is longer; and "New Conversation" when no initial message, or the empty
    string, is given. *)
Theorem createConversation_title (newId : string) (now : Z) (init : option string)
    (raw : Storage) :
  exists conv,
    createConversation parseDate toISOString None newId now init raw =
      Ok (conv, Some (stringifyD (conv :: load raw))) /\
    conv_id conv = newId /\ messages conv = [] /\
    match init with
    | Some m =>
        if truthy m then
          ((String.length m <= 50)%nat -> title conv = m) /\
          ((50 < String.length m)%nat ->
             String.length (title conv) = 50%nat /\
             substring 0 47 (title conv) = substring 0 47 m /\
             substring 47 3 (title conv) = "..."%string)
        else title conv = "New Conversation"%string
    | None => title conv = "New Conversation"%string
    end.
Proof.
  eexists. split; [reflexivity|]. split; [reflexivity|]. split; [reflexivity|].
  destruct init as [m|]; [|reflexivity]. simpl. unfold conversation_title.
  destruct (truthy m); [|reflexivity].
  destruct (Nat.ltb_spec 50 (String.length m)) as [Hlong|Hshort].
  - split; [lia|]. intros _.
    assert (H47 : String.length (substring 0 47 m) = 47%nat) by (apply substring0_length; lia).
    split; [rewrite string_append_length, H47; reflexivity|].
    split.
    + rewrite substring0_append by lia. apply substring0_idem.
    + rewrite <- H47 at 1. rewrite substring_after_prefix. reflexivity.
  - split; [reflexivity | lia].
Qed.

End Proofs.


(** * Further properties of the code *)

(** ** The dedup step (LocalStorageService / ChatApiService.deduplicateMessages) *)

Lemma dedup_loop_sublist (l : list Message) : forall seen,
  sublist (dedup_loop seen l) l.
Proof.
  induction l as [|m rest IH]; intros seen; simpl; [constructor|].
  case_decide.
  - apply sublist_cons. apply IH.
  - apply sublist_skip. apply IH.
Qed.

(** The dedup step returns a subsequence of its input: it only drops
    messages and keeps the order of those it keeps. *)
Theorem deduplicateMessages_sublist (l : list Message) :
  sublist (deduplicateMessages l) l.
Proof. apply dedup_loop_sublist. Qed.

Lemma dedup_loop_first (l : list Message) : forall seen m,
  In m (dedup_loop seen l) <->
  exists pre post, l = pre ++ m :: post /\ (dedup_key m ∉ seen) /\
                   ~ In (dedup_key m) (map dedup_key pre).
Proof.
  induction l as [|x rest IH]; intros seen m; simpl.
  - split; [tauto|]. intros (pre & post & Hl & _). destruct pre; discriminate.
  - case_decide as Hx.
    + rewrite IH. split.
      * intros (pre & post & -> & Hs & Hp). exists (x :: pre), post.
        split; [reflexivity|]. split; [exact Hs|]. simpl.
        intros [E|E]; [rewrite E in Hx; contradiction | contradiction].
      * intros (pre & post & Hl & Hs & Hp). destruct pre as [|y pre]; simpl in Hl.
        -- injection Hl as -> _. contradiction.
        -- injection Hl as -> Hr. exists pre, post. simpl in Hp. tauto.
    + simpl. rewrite IH. split.
      * intros [<-|(pre & post & -> & Hs & Hp)].
        -- exists [], rest. simpl. tauto.
        -- exists (x :: pre), post. split; [reflexivity|]. split; [set_solver|].
           simpl. intros [E|E]; [|contradiction]. rewrite E in Hs. set_solver.
      * intros (pre & post & Hl & Hs & Hp). destruct pre as [|y pre]; simpl in Hl.
        -- injection Hl as -> _. left. reflexivity.
        -- injection Hl as -> Hr. right. exists pre, post. simpl in Hp.
           split; [exact Hr|]. split; [|tauto].
           assert (dedup_key m <> dedup_key y) by (intros E; apply Hp; left; congruence).
           set_solver.
Qed.

(** The messages the dedup step keeps are exactly the first occurrences of
    their key: [m] is kept iff it occurs in the input with no earlier
    message of the same [role-content-time] key. *)
Theorem deduplicateMessages_first_occurrences (l : list Message) (m : Message) :
  In m (deduplicateMessages l) <->
  exists pre post, l = pre ++ m :: post /\ ~ In (dedup_key m) (map dedup_key pre).
Proof.
  unfold deduplicateMessages. rewrite dedup_loop_first. split.
  - intros (pre & post & ? & _ & ?). eauto.
  - intros (pre & post & ? & ?). exists pre, post. split; [assumption|]. split; [set_solver | assumption].
Qed.

Lemma dedup_loop_covers (l : list Message) : forall seen m,
  In m l -> dedup_key m ∈ seen \/
            exists m', In m' (dedup_loop seen l) /\ dedup_key m' = dedup_key m.
Proof.
  induction l as [|x rest IH]; intros seen m Hm; simpl in *; [contradiction|].
  case_decide as Hx.
  - destruct Hm as [<-|Hm]; [left; exact Hx | exact (IH seen m Hm)].
  - destruct Hm as [<-|Hm]; [right; exists x; simpl; auto|].
    destruct (IH ({[dedup_key x]} ∪ seen) m Hm) as [Hin|(m' & Hm' & Hk)].
    + apply elem_of_union in Hin as [Hin|Hin]; [|left; exact Hin].
      apply elem_of_singleton in Hin. right. exists x. simpl. auto.
    + right. exists m'. simpl. auto.
Qed.

(** The output has pairwise distinct keys, and every key of the input is
    the key of some message of the output. *)
Theorem deduplicateMessages_keys (l : list Message) :
  NoDup (map dedup_key (deduplicateMessages l)) /\
  forall m, In m l -> exists m', In m' (deduplicateMessages l) /\ dedup_key m' = dedup_key m.
Proof.
  split; [apply (proj1 (dedup_loop_keys l ∅))|].
  intros m Hm. destruct (dedup_loop_covers l ∅ m Hm) as [Hin|H]; [set_solver | exact H].
Qed.

(** The dedup step leaves a list unchanged exactly when its keys are
    pairwise distinct. *)
Theorem deduplicateMessages_fixpoint (l : list Message) :
  deduplicateMessages l = l <-> NoDup (map dedup_key l).
Proof.
  split.
  - intros E. rewrite <- E. apply (proj1 (dedup_loop_keys l ∅)).
  - intros Hnd. apply dedup_loop_nodup; [exact Hnd | set_solver].
Qed.

(** Deduplicating twice is deduplicating once. *)
Theorem deduplicateMessages_idempotent (l : list Message) :
  deduplicateMessages (deduplicateMessages l) = deduplicateMessages l.
Proof.
  apply dedup_loop_nodup; [apply (proj1 (dedup_loop_keys l ∅)) | set_solver].
Qed.


(** ** Whitespace: trim, sanitizeInput and their callers *)

Section Whitespace.

Local Abbreviation L := list_ascii_of_string.

Fixpoint drop_ws (l : list ascii) : list ascii :=
  match l with
  | [] => []
  | c :: r => if is_js_space c then drop_ws r else l
  end.

Definition head_ok (l : list ascii) : Prop :=
  match l with [] => True | c :: _ => is_js_space c = false end.

Lemma L_inj (s1 s2 : string) : L s1 = L s2 -> s1 = s2.
Proof.
  intros E. rewrite <- (string_of_list_ascii_of_string s1), <- (string_of_list_ascii_of_string s2).
  congruence.
Qed.

Lemma L_length (s : string) : String.length s = length (L s).
Proof. induction s as [|c s IH]; simpl; [reflexivity | rewrite IH; reflexivity]. Qed.

Lemma L_rev_app (s1 s2 : string) : L (String.rev_app s1 s2) = List.rev (L s1) ++ L s2.
Proof.
  revert s2. induction s1 as [|c s1 IH]; intros s2; simpl; [reflexivity|].
  rewrite IH. simpl. rewrite <- app_assoc. reflexivity.
Qed.

Lemma L_rev (s : string) : L (String.rev s) = List.rev (L s).
Proof. unfold String.rev. rewrite L_rev_app. apply app_nil_r. Qed.

Lemma L_trim_start (s : string) : L (trim_start s) = drop_ws (L s).
Proof.
  induction s as [|c s IH]; simpl; [reflexivity|].
  destruct (is_js_space c); [exact IH | reflexivity].
Qed.

Lemma L_trim (s : string) : L (trim s) = List.rev (drop_ws (List.rev (drop_ws (L s)))).
Proof. unfold trim. rewrite L_rev, L_trim_start, L_rev, L_trim_start. reflexivity. Qed.

Lemma drop_ws_suffix (l : list ascii) : exists p, l = p ++ drop_ws l.
Proof.
  induction l as [|c r IH]; simpl; [exists []; reflexivity|].
  destruct (is_js_space c); [|exists []; reflexivity].
  destruct IH as [p Hp]. exists (c :: p). simpl. congruence.
Qed.

Lemma drop_ws_head (l : list ascii) : head_ok (drop_ws l).
Proof.
  induction l as [|c r IH]; simpl; [exact I|].
  destruct (is_js_space c) eqn:Hc; [exact IH | exact Hc].
Qed.

Lemma drop_ws_id (l : list ascii) : head_ok l -> drop_ws l = l.
Proof. destruct l as [|c r]; simpl; [reflexivity|]. intros ->. reflexivity. Qed.

Lemma drop_ws_length (l : list ascii) : (length (drop_ws l) <= length l)%nat.
Proof. induction l as [|c r IH]; simpl; [lia|]. destruct (is_js_space c); simpl; lia. Qed.

(** Dropping trailing whitespace keeps a prefix. *)
Lemma drop_trailing_prefix (x : list ascii) :
  exists q, x = List.rev (drop_ws (List.rev x)) ++ q.
Proof.
  destruct (drop_ws_suffix (List.rev x)) as [p Hp].
  exists (List.rev p). rewrite <- rev_app_distr, <- Hp, rev_involutive. reflexivity.
Qed.

Lemma drop_trailing_head (x : list ascii) : head_ok x -> head_ok (List.rev (drop_ws (List.rev x))).
Proof.
  intros Hx. destruct (drop_trailing_prefix x) as [q Hq].
  destruct (List.rev (drop_ws (List.rev x))) as [|c r]; simpl; [exact I|].
  rewrite Hq in Hx. exact Hx.
Qed.

Lemma trim_head (s : string) : head_ok (L (trim s)).
Proof. rewrite L_trim. apply drop_trailing_head, drop_ws_head. Qed.

Lemma trim_last (s : string) : head_ok (List.rev (L (trim s))).
Proof. rewrite L_trim, rev_involutive. apply drop_ws_head. Qed.

Lemma trim_id (s : string) :
  head_ok (L s) -> head_ok (List.rev (L s)) -> trim s = s.
Proof.
  intros H1 H2. apply L_inj. rewrite L_trim, (drop_ws_id _ H1), (drop_ws_id _ H2).
  apply rev_involutive.
Qed.

Lemma trim_idem (s : string) : trim (trim s) = trim s.
Proof. apply trim_id; [apply trim_head | apply trim_last]. Qed.

Lemma trim_length (s : string) : (String.length (trim s) <= String.length s)%nat.
Proof.
  rewrite !L_length, L_trim, length_rev.
  pose proof (drop_ws_length (List.rev (drop_ws (L s)))) as H1.
  pose proof (drop_ws_length (L s)) as H2. rewrite length_rev in H1. lia.
Qed.

Fixpoint ends_nonspace (s : string) : Prop :=
  match s with
  | EmptyString => False
  | String c r => match r with EmptyString => is_js_space c = false | _ => ends_nonspace r end
  end.

Lemma head_ok_snoc (l : list ascii) (c : ascii) : l <> [] -> head_ok (l ++ [c]) = head_ok l.
Proof. destruct l; [congruence | reflexivity]. Qed.

Lemma ends_nonspace_iff (s : string) :
  s = EmptyString \/ ends_nonspace s <-> head_ok (List.rev (L s)).
Proof.
  induction s as [|c r IH]; simpl; [tauto|].
  destruct r as [|c' r'].
  - simpl. split; [intros [?|?]; [discriminate | assumption] | intros; right; assumption].
  - rewrite head_ok_snoc by (simpl; intros E; apply app_eq_nil in E as [_ E]; discriminate).
    rewrite <- IH. split; [intros [?|?]; [discriminate | right; assumption]|].
    intros [?|?]; [discriminate | right; assumption].
Qed.

Lemma ends_nonspace_nonempty (s : string) : ends_nonspace s -> s <> EmptyString.
Proof. destruct s; simpl; [contradiction | discriminate]. Qed.

Lemma collapse_ends (s : string) : forall b, ends_nonspace s -> ends_nonspace (collapse_ws b s).
Proof.
  induction s as [|c r IH]; intros b Hs; [contradiction|].
  destruct r as [|c' r'].
  - simpl in Hs. simpl. rewrite Hs. exact Hs.
  - change (ends_nonspace (String c' r')) in Hs.
    assert (Hne : forall b', collapse_ws b' (String c' r') <> EmptyString)
      by (intros b'; apply ends_nonspace_nonempty, IH, Hs).
    remember (String c' r') as r eqn:Er. clear Er. simpl collapse_ws.
    destruct (is_js_space c); [destruct b|].
    + apply IH, Hs.
    + specialize (Hne true). specialize (IH true Hs).
      simpl. destruct (collapse_ws true r); [congruence | exact IH].
    + specialize (Hne false). specialize (IH false Hs).
      simpl. destruct (collapse_ws false r); [congruence | exact IH].
Qed.

Lemma collapse_head (b : bool) (s : string) : head_ok (L s) -> head_ok (L (collapse_ws b s)).
Proof. destruct s as [|c r]; simpl; [tauto|]. intros Hc. rewrite Hc. exact Hc. Qed.

Lemma collapse_idem (s : string) : forall b, collapse_ws b (collapse_ws b s) = collapse_ws b s.
Proof.
  induction s as [|c r IH]; intros b; simpl; [reflexivity|].
  destruct (is_js_space c) eqn:Hc; [destruct b|]; simpl.
  - apply IH.
  - rewrite IH. reflexivity.
  - rewrite Hc, IH. reflexivity.
Qed.

Lemma collapse_single (s : string) : forall b, single_spaced b (collapse_ws b s) = true.
Proof.
  induction s as [|c r IH]; intros b; simpl; [reflexivity|].
  destruct (is_js_space c) eqn:Hc; [destruct b|]; simpl.
  - apply IH.
  - rewrite IH. reflexivity.
  - rewrite Hc. apply IH.
Qed.

Lemma collapse_length (s : string) : forall b,
  (String.length (collapse_ws b s) <= String.length s)%nat.
Proof.
  induction s as [|c r IH]; intros b; simpl; [lia|].
  destruct (is_js_space c); [destruct b|]; simpl;
    [pose proof (IH true) | pose proof (IH true) | pose proof (IH false)]; lia.
Qed.

Lemma sanitize_trim (s : string) : trim (sanitizeInput s) = sanitizeInput s.
Proof.
  unfold sanitizeInput. apply trim_id.
  - apply collapse_head, trim_head.
  - apply ends_nonspace_iff. destruct (proj2 (ends_nonspace_iff (trim s)) (trim_last s)) as [E|E].
    + left. rewrite E. reflexivity.
    + right. apply collapse_ends, E.
Qed.

Lemma validateMessage_bounds (c : string) :
  validateMessage c = true ->
  (0 < String.length (trim c))%nat /\ Z.of_nat (String.length (trim c)) <= 10000.
Proof.
  unfold validateMessage. intros H. apply andb_true_iff in H as [H1 H2].
  apply Nat.ltb_lt in H1. apply Z.leb_le in H2. pose proof (trim_length c). lia.
Qed.

(** [sanitizeInput] returns a normal form: no whitespace at either end,
    only single spaces inside, unchanged by a second [sanitizeInput] or a
    [trim], and no longer than its input. *)
Theorem sanitizeInput_normal_form (s : string) :
  trim (sanitizeInput s) = sanitizeInput s /\
  sanitizeInput (sanitizeInput s) = sanitizeInput s /\
  single_spaced false (sanitizeInput s) = true /\
  (String.length (sanitizeInput s) <= String.length s)%nat.
Proof.
  split; [apply sanitize_trim|]. split.
  - unfold sanitizeInput at 1. rewrite sanitize_trim. unfold sanitizeInput. apply collapse_idem.
  - split; [apply collapse_single|]. unfold sanitizeInput.
    pose proof (collapse_length (trim s) false). pose proof (trim_length s). lia.
Qed.

(** A message accepted by [validateMessage] becomes, once trimmed as
    [sendMessage] stores it, a content of 1 to 10000 characters that a
    further trim leaves unchanged. *)
Theorem validateMessage_trimmed_content (content : string) :
  validateMessage content = true ->
  (0 < String.length (trim content))%nat /\ Z.of_nat (String.length (trim content)) <= 10000 /\
  trim (trim content) = trim content.
Proof.
  intros H. destruct (validateMessage_bounds _ H) as [H1 H2].
  split; [exact H1|]. split; [exact H2 | apply trim_idem].
Qed.

(** The sidebar renames only with a sanitized title of 1 to 100
    characters with no surrounding whitespace, and then leaves edit mode;
    the store's rename, which trims, therefore stores that title as is. *)
Theorem handleSaveEdit_rename (st st' : SidebarState) (id t : string)
    (H : handleSaveEdit st = (st', Some (id, t))) :
  st' = mkSidebarState None "" /\ editingId st = Some id /\
  t = sanitizeInput (editTitle st) /\ trim t = t /\ (0 < String.length t <= 100)%nat /\
  forall parseDate toISOString now raw c,
    find_conv id (load_conversations parseDate raw) = Some c ->
    updateConversationTitle parseDate toISOString None now id t raw =
    Ok (with_title c t (Some now),
        Some (stringify toISOString
                (replace_conv id (with_title c t (Some now)) (load_conversations parseDate raw)))).
Proof.
  unfold handleSaveEdit in H.
  destruct (editingId st) as [i|] eqn:Hi; [|discriminate].
  destruct (truthy i && truthy (trim (editTitle st))); [|discriminate].
  destruct (validateConversationTitle (sanitizeInput (editTitle st))) eqn:Hv; [|discriminate].
  injection H as <- <- <-.
  assert (Ht : trim (sanitizeInput (editTitle st)) = sanitizeInput (editTitle st)) by apply sanitize_trim.
  unfold validateConversationTitle in Hv. rewrite Ht in Hv.
  apply andb_true_iff in Hv as [Hv1 Hv2]. apply Nat.ltb_lt in Hv1. apply Nat.leb_le in Hv2.
  split; [reflexivity|]. split; [reflexivity|]. split; [reflexivity|]. split; [exact Ht|].
  split; [lia|].
  intros parseDate toISOString now raw c Hc.
  unfold updateConversationTitle, svc_bind, getConversations, svc_bind, getItem, svc_ret.
  rewrite Hc, Ht. reflexivity.
Qed.

(** The input bar sends only when not loading, then clears the input; what
    it sends is the sanitized input, valid for [validateMessage], with no
    surrounding whitespace, so [sendMessage]'s trim stores it unchanged. *)
Theorem handleSend_sends (isLoading : bool) (input input' s : string)
    (H : handleSend isLoading input = (input', Some s)) :
  isLoading = false /\ input' = ""%string /\ s = sanitizeInput input /\
  validateMessage s = true /\ trim s = s /\ single_spaced false s = true.
Proof.
  unfold handleSend in H.
  destruct (validateMessage (sanitizeInput input)) eqn:Hv; [|discriminate].
  destruct isLoading; [discriminate|]. injection H as <- <-.
  split; [reflexivity|]. split; [reflexivity|]. split; [reflexivity|]. split; [exact Hv|].
  split; [apply sanitize_trim | apply collapse_single].
Qed.

End Whitespace.


(** ** Reading back what LocalStorageService wrote *)

Section ReadBack.

Variable parseDate : string -> option Z.
Variable toISOString : Z -> string.

Local Abbreviation load := (load_conversations parseDate).
Local Abbreviation stringifyD := (stringify toISOString).
Local Abbreviation reload := (fun c => load_conversation parseDate (store_conversation toISOString c)).

Lemma ids_load_stringify (l : list Conversation) :
  map conv_id (load (Some (stringifyD l))) = map conv_id l.
Proof. simpl. rewrite !map_map. reflexivity. Qed.

Lemma find_conv_load_stringify (id : string) (l : list Conversation) :
  find_conv id (load (Some (stringifyD l))) = option_map reload (find_conv id l).
Proof.
  simpl. rewrite map_map. apply (find_conv_map reload). intros x. reflexivity.
Qed.

Lemma find_conv_filter_out (id : string) (l : list Conversation) :
  find_conv id (List.filter (fun c => bool_decide (conv_id c <> id)) l) = None.
Proof.
  induction l as [|x r IH]; simpl; [reflexivity|].
  case_bool_decide as Hx; simpl; [|exact IH].
  rewrite bool_decide_eq_false_2 by exact Hx. exact IH.
Qed.

Lemma ids_filter_out (id : string) (l : list Conversation) :
  map conv_id (List.filter (fun c => bool_decide (conv_id c <> id)) l) =
  List.filter (fun x => bool_decide (x <> id)) (map conv_id l).
Proof.
  induction l as [|x r IH]; simpl; [reflexivity|].
  case_bool_decide; simpl; [rewrite IH; reflexivity | exact IH].
Qed.

Lemma ids_replace (id : string) (c' : Conversation) (l : list Conversation) :
  conv_id c' = id -> map conv_id (replace_conv id c' l) = map conv_id l.
Proof.
  intros Hc. unfold replace_conv. induction l as [|x r IH]; simpl; [reflexivity|].
  rewrite IH. case_bool_decide; simpl; congruence.
Qed.


Lemma dedup_ids_incl (x : string) (l : list Message) :
  In x (map msg_id (deduplicateMessages l)) -> In x (map msg_id l).
Proof.
  intros Hx. apply in_map_iff in Hx as (m & <- & Hm).
  apply in_map, (dedup_loop_incl _ _ _ Hm).
Qed.

Lemma filter_ids_out (mid : string) (l : list Message) :
  ~ In mid (map msg_id (List.filter (fun m => bool_decide (msg_id m <> mid)) l)).
Proof.
  induction l as [|m r IH]; simpl; [tauto|].
  case_bool_decide as Hm; simpl; [|exact IH]. intros [E|E]; [congruence | exact (IH E)].
Qed.

(** After a successful [createConversation], the stored list reads back as
    the new conversation (its computed title, no messages) followed by the
    conversations read before, in their order. *)
Theorem createConversation_read_back (newId : string) (now : Z) (init : option string)
    (raw : Storage) :
  exists conv s',
    createConversation parseDate toISOString None newId now init raw = Ok (conv, s') /\
    map conv_id (load s') = newId :: map conv_id (load raw) /\
    exists c, find_conv newId (load s') = Some c /\
              title c = conversation_title init /\ messages c = [].
Proof.
  set (conv := mkConversation newId (conversation_title init) [] (Some now) (Some now)).
  exists conv, (Some (stringifyD (conv :: load raw))). split; [reflexivity|].
  split; [rewrite ids_load_stringify; reflexivity|].
  exists (reload conv). rewrite find_conv_load_stringify. simpl.
  rewrite bool_decide_eq_true_2 by reflexivity. split; [|split]; reflexivity.
Qed.

(** After a successful [deleteConversation(id)], the stored list reads
    back with no conversation of that id and every other one in its
    previous order. *)
Theorem deleteConversation_read_back (id : string) (raw : Storage) :
  exists s',
    deleteConversation parseDate toISOString None id raw = Ok (tt, s') /\
    find_conv id (load s') = None /\
    map conv_id (load s') = List.filter (fun x => bool_decide (x <> id)) (map conv_id (load raw)).
Proof.
  exists (Some (stringifyD (List.filter (fun c => bool_decide (conv_id c <> id)) (load raw)))).
  split; [reflexivity|].
  rewrite find_conv_load_stringify, find_conv_filter_out, ids_load_stringify, ids_filter_out.
  split; reflexivity.
Qed.

(** After a successful rename of an existing conversation, the stored list
    reads back with the same ids in the same order, and the conversation
    found under [id] carries the trimmed title. *)
Theorem updateConversationTitle_read_back (now : Z) (id t : string) (raw : Storage)
    (c : Conversation) (Hc : find_conv id (load raw) = Some c) :
  exists c' s',
    updateConversationTitle parseDate toISOString None now id t raw = Ok (c', s') /\
    map conv_id (load s') = map conv_id (load raw) /\
    exists c'', find_conv id (load s') = Some c'' /\ title c'' = trim t.
Proof.
  set (c' := with_title c (trim t) (Some now)).
  assert (Hid : conv_id c' = id) by exact (find_conv_id _ _ _ Hc).
  exists c', (Some (stringifyD (replace_conv id c' (load raw)))). split.
  { unfold updateConversationTitle, svc_bind, getConversations, svc_bind, getItem, svc_ret.
    rewrite Hc. reflexivity. }
  split; [rewrite ids_load_stringify; apply ids_replace, Hid|].
  exists (reload c'). rewrite find_conv_load_stringify, (find_conv_replace _ _ c _ Hc Hid).
  split; reflexivity.
Qed.

(** After a successful [removeMessageFromConversation] on an existing
    conversation, the stored list reads back with the same ids in the same
    order, and the conversation has no message with the removed id. *)
Theorem removeMessage_read_back (now : Z) (cid mid : string) (raw : Storage)
    (c : Conversation) (Hc : find_conv cid (load raw) = Some c) :
  exists c' s',
    removeMessageFromConversation parseDate toISOString None now cid mid raw = Ok (Some c', s') /\
    map conv_id (load s') = map conv_id (load raw) /\
    exists c'', find_conv cid (load s') = Some c'' /\ ~ In mid (map msg_id (messages c'')).
Proof.
  set (c' := with_messages c (List.filter (fun m => bool_decide (msg_id m <> mid)) (messages c))
               (Some now)).
  assert (Hid : conv_id c' = cid) by exact (find_conv_id _ _ _ Hc).
  exists c', (Some (stringifyD (replace_conv cid c' (load raw)))). split.
  { unfold removeMessageFromConversation, svc_bind, getConversations, svc_bind, getItem, svc_ret.
    rewrite Hc. reflexivity. }
  split; [rewrite ids_load_stringify; apply ids_replace, Hid|].
  exists (reload c'). rewrite find_conv_load_stringify, (find_conv_replace _ _ c _ Hc Hid).
  split; [reflexivity|]. simpl. intros Hin. apply dedup_ids_incl in Hin.
  rewrite map_msg_id_load, map_s_id_store in Hin. exact (filter_ids_out _ _ Hin).
Qed.

(** ** The send flow touches only the selected conversation *)




End ReadBack.


(** ** StorageService: exact round trip, and dates it cannot write *)

Section StorageServiceProofs.

Variable parseDate : string -> option Z.
Variable toISOString : Z -> string.

Lemma transformMessages_roundtrip (ms : list Message) :
  forallb (message_date_roundtrips parseDate toISOString) ms = true ->
  exists sms, StorageService.transformMessagesForStorage toISOString ms = Some sms /\
              map (load_message parseDate) sms = ms.
Proof.
  induction ms as [|m r IH]; simpl; [exists []; split; reflexivity|].
  intros H. apply andb_true_iff in H as [Hm Hr]. destruct (IH Hr) as (srest & Hsr & Hs).
  destruct m as [i c ro [t|]]; unfold message_date_roundtrips in Hm; simpl in Hm; [|discriminate].
  apply bool_decide_eq_true in Hm.
  exists (mkStoredMessage i c ro (JStr (toISOString t)) :: srest). split.
  - unfold StorageService.transformMessageForStorage. simpl. rewrite Hsr. reflexivity.
  - simpl. rewrite Hs. unfold load_message. simpl. rewrite Hm. reflexivity.
Qed.

Lemma transformConversations_roundtrip (cs : list Conversation) :
  forallb (StorageService.conversation_dates_roundtrip parseDate toISOString) cs = true ->
  exists l, StorageService.transformConversationsForStorage toISOString cs = Some l /\
            transformStoredConversations parseDate l = cs.
Proof.
  induction cs as [|c r IH]; simpl; [exists []; split; reflexivity|].
  intros H. apply andb_true_iff in H as [Hc Hr]. destruct (IH Hr) as (lr & Hlr & Hl).
  destruct c as [i ti ms [ca|] [ua|]]; unfold StorageService.conversation_dates_roundtrip in Hc;
    simpl in Hc; try discriminate.
  apply andb_true_iff in Hc as [Hc Hms]. apply andb_true_iff in Hc as [Hca Hua].
  apply bool_decide_eq_true in Hca, Hua.
  destruct (transformMessages_roundtrip ms Hms) as (sms & Hsms & Hload).
  exists (mkStoredConversation i ti sms (JStr (toISOString ca)) (JStr (toISOString ua)) :: lr).
  split.
  - unfold StorageService.transformConversationForStorage. simpl. rewrite Hsms, Hlr. reflexivity.
  - unfold transformStoredConversations in *. simpl. rewrite Hl, Hload, Hca, Hua. reflexivity.
Qed.

Lemma transformMessages_invalid (ms : list Message) :
  (exists m, In m ms /\ timestamp m = None) ->
  StorageService.transformMessagesForStorage toISOString ms = None.
Proof.
  intros (m & Hm & Ht). induction ms as [|x r IH]; simpl in *; [contradiction|].
  destruct Hm as [<-|Hm].
  - unfold StorageService.transformMessageForStorage. rewrite Ht. reflexivity.
  - rewrite (IH Hm). destruct (StorageService.transformMessageForStorage toISOString x); reflexivity.
Qed.

Lemma transformConversations_invalid (cs : list Conversation) (c : Conversation) :
  In c cs ->
  (createdAt c = None \/ updatedAt c = None \/ exists m, In m (messages c) /\ timestamp m = None) ->
  StorageService.transformConversationsForStorage toISOString cs = None.
Proof.
  intros Hc Hinv. induction cs as [|x r IH]; simpl in *; [contradiction|].
  destruct Hc as [E|Hc]; [subst x|].
  - unfold StorageService.transformConversationForStorage.
    destruct Hinv as [->|[->|Hm]]; [reflexivity|destruct (StorageService.iso_string toISOString (createdAt c)); reflexivity|].
    rewrite (transformMessages_invalid _ Hm).
    destruct (StorageService.iso_string toISOString (createdAt c)), (StorageService.iso_string toISOString (updatedAt c)); reflexivity.
  - rewrite (IH Hc). destruct (StorageService.transformConversationForStorage toISOString x); reflexivity.
Qed.

(** When every date of every conversation is valid and survives
    [toISOString] and a parse, a successful [StorageService.saveConversations]
    followed by [getConversations] returns exactly the saved list (this read
    path does not deduplicate), and [getConversation(id)] finds what [find]
    finds in it. *)
Theorem StorageService_save_then_get (cs : list Conversation) (raw : Storage)
    (Hd : forallb (StorageService.conversation_dates_roundtrip parseDate toISOString) cs = true) :
  exists s',
    StorageService.saveConversations toISOString None cs raw = Ok (tt, s') /\
    StorageService.getConversations parseDate s' = Ok (cs, s') /\
    forall id, StorageService.getConversation parseDate id s' = Ok (find_conv id cs, s').
Proof.
  destruct (transformConversations_roundtrip cs Hd) as (l & Hl & Hback).
  exists (Some (PJson l)).
  unfold StorageService.saveConversations, StorageService.svc_rethrow. rewrite Hl.
  split; [reflexivity|]. split.
  - unfold StorageService.getConversations, svc_bind, getItem, svc_ret. rewrite Hback. reflexivity.
  - intros id. unfold StorageService.getConversation, StorageService.getConversations,
      svc_bind, getItem, svc_ret. rewrite Hback. reflexivity.
Qed.

(** [StorageService.saveConversations] rejects, whatever the store would do,
    a list in which some conversation has an Invalid Date (created, updated
    or a message timestamp): [toISOString] throws and the call fails with
    "Failed to save conversations" without writing. *)
Theorem StorageService_save_rejects_invalid_date (w : option string) (cs : list Conversation)
    (raw : Storage) (c : Conversation) (Hc : In c cs)
    (Hinv : createdAt c = None \/ updatedAt c = None \/
            exists m, In m (messages c) /\ timestamp m = None) :
  StorageService.saveConversations toISOString w cs raw =
  Err (ServiceError "Failed to save conversations").
Proof.
  unfold StorageService.saveConversations, StorageService.svc_rethrow.
  rewrite (transformConversations_invalid cs c Hc Hinv). reflexivity.
Qed.

End StorageServiceProofs.

(** ** ChatApiService *)

Section ChatApiProofs.

Variable parseDate : string -> option Z.
Variable toISOString : Z -> string.

Local Abbreviation load := (load_conversations parseDate).
Local Abbreviation stringifyD := (stringify toISOString).
Local Abbreviation reload := (fun c => load_conversation parseDate (store_conversation toISOString c)).

Lemma find_conv_app_fresh (id : string) (l1 l2 : list Conversation) :
  ~ In id (map conv_id l1) -> find_conv id (l1 ++ l2) = find_conv id l2.
Proof.
  induction l1 as [|x r IH]; simpl; [reflexivity|]. intros Hn.
  rewrite bool_decide_eq_false_2 by (intros E; apply Hn; left; exact E). apply IH. tauto.
Qed.

Lemma update_first_app_fresh (id : string) (f : Conversation -> Conversation)
    (l1 l2 : list Conversation) :
  ~ In id (map conv_id l1) ->
  ChatApiService.update_first id f (l1 ++ l2) = l1 ++ ChatApiService.update_first id f l2.
Proof.
  induction l1 as [|x r IH]; simpl; [reflexivity|]. intros Hn.
  rewrite bool_decide_eq_false_2 by (intros E; apply Hn; left; exact E). rewrite IH by tauto.
  reflexivity.
Qed.

Lemma find_conv_update_first (id : string) (f : Conversation -> Conversation)
    (l : list Conversation) (c : Conversation) :
  find_conv id l = Some c -> conv_id (f c) = id ->
  find_conv id (ChatApiService.update_first id f l) = Some (f c).
Proof.
  intros Hf Hid. induction l as [|x r IH]; simpl in *; [discriminate|].
  case_bool_decide as Hx.
  - injection Hf as <-. simpl. rewrite bool_decide_eq_true_2 by exact Hid. reflexivity.
  - simpl. rewrite bool_decide_eq_false_2 by exact Hx. exact (IH Hf).
Qed.

Lemma ids_map_reload (l : list Conversation) : map conv_id (map reload l) = map conv_id l.
Proof. rewrite map_map. reflexivity. Qed.

Lemma dedup_single (m : Message) : deduplicateMessages [m] = [m].
Proof. unfold deduplicateMessages. simpl. rewrite decide_False by set_solver. reflexivity. Qed.

(** [storeConversations] logs and swallows a rejected write, so every write
    operation of ChatApiService resolves as if the write had been accepted,
    while the store keeps its previous content. *)
Theorem ChatApiService_write_errors_swallowed (e : string) (now : Z) (raw : Storage) :
  (forall id t,
     ChatApiService.updateConversationTitle parseDate toISOString (Some e) now id t raw =
     drop_write (ChatApiService.updateConversationTitle parseDate toISOString None now id t raw) raw) /\
  (forall upd,
     ChatApiService.updateConversation parseDate toISOString (Some e) now upd raw =
     drop_write (ChatApiService.updateConversation parseDate toISOString None now upd raw) raw) /\
  (forall m cid,
     ChatApiService.addUserMessage parseDate toISOString (Some e) now m cid raw =
     drop_write (ChatApiService.addUserMessage parseDate toISOString None now m cid raw) raw) /\
  (forall id, ChatApiService.deleteConversation parseDate toISOString (Some e) id raw = Ok (tt, raw)) /\
  (forall cs, ChatApiService.saveConversations toISOString (Some e) cs raw = Ok (tt, raw)).
Proof.
  unfold ChatApiService.updateConversationTitle, ChatApiService.updateConversation,
    ChatApiService.addUserMessage, ChatApiService.deleteConversation,
    ChatApiService.saveConversations, ChatApiService.loadConversations,
    ChatApiService.storeConversations, svc_bind, getItem, svc_ret, svc_throw, setItem.
  split; [intros id t; destruct (find_conv id (load raw)); reflexivity|].
  split; [intros upd; destruct (find_conv (conv_id upd) (load raw)); reflexivity|].
  split; [intros m cid; destruct (find_conv cid (load raw)); reflexivity|].
  split; reflexivity.
Qed.


(** Without an initial message, [ChatApiService.createConversation]
    returns a new, empty "New Conversation". With an accepted write it is
    stored after the existing ones (where LocalStorageService puts it
    first); with a rejected write the call still resolves with it and the
    store is unchanged. *)
Theorem ChatApiService_createConversation_appends (w2 : option string) (newId : string) (now : Z)
    (aiId : string) (t_msg t_conv : Z) (completion : Completion) (raw : Storage) :
  exists conv,
    conv_id conv = newId /\ title conv = "New Conversation"%string /\ messages conv = [] /\
    (exists s',
       ChatApiService.createConversation parseDate toISOString None w2 newId now aiId t_msg t_conv
         completion None raw = Ok (conv, s') /\
       map conv_id (load s') = map conv_id (load raw) ++ [newId]) /\
    (forall e,
       ChatApiService.createConversation parseDate toISOString (Some e) w2 newId now aiId t_msg
         t_conv completion None raw = Ok (conv, raw)).
Proof.
  set (conv := mkConversation newId (conversation_title None) [] (Some now) (Some now)).
  exists conv. do 3 (split; [reflexivity|]). split.
  - exists (Some (stringifyD (load raw ++ [conv]))). split; [reflexivity|].
    rewrite ids_load_stringify, map_app. reflexivity.
  - intros e. reflexivity.
Qed.

(** With a non-empty initial message, a fresh non-empty id, a successful
    completion and accepted writes, [ChatApiService.createConversation]
    returns the conversation that a read of the store then finds under the
    new id: its only message is the assistant's reply (the user's message is
    not stored), and it is placed after the existing conversations. *)
Theorem ChatApiService_createConversation_with_reply (newId : string) (now : Z) (aiId : string)
    (t_msg t_conv : Z) (r m : string) (raw : Storage)
    (Hm : truthy m = true) (Hid : truthy newId = true)
    (Hfresh : ~ In newId (map conv_id (load raw))) :
  exists conv s',
    ChatApiService.createConversation parseDate toISOString None None newId now aiId t_msg t_conv
      (CompletionOk r) (Some m) raw = Ok (conv, s') /\
    conv_id conv = newId /\ title conv = conversation_title (Some m) /\
    map msg_id (messages conv) = [aiId] /\ map content (messages conv) = [r] /\
    map role (messages conv) = [Assistant] /\
    find_conv newId (load s') = Some conv /\
    map conv_id (load s') = map conv_id (load raw) ++ [newId].
Proof.
  set (conv0 := mkConversation newId (conversation_title (Some m)) [] (Some now) (Some now)).
  set (ai := mkMessage aiId r Assistant (Some t_msg)).
  set (f := fun c => with_messages c (messages c ++ [ai]) (Some t_conv)).
  set (L1 := map reload (load raw) ++ [reload conv0]).
  assert (HL1 : load (Some (stringifyD (load raw ++ [conv0]))) = L1)
    by (rewrite load_stringify, map_app; reflexivity).
  assert (Hfresh1 : ~ In newId (map conv_id (map reload (load raw))))
    by (rewrite ids_map_reload; exact Hfresh).
  assert (Hf1 : find_conv newId L1 = Some (reload conv0)).
  { unfold L1. rewrite find_conv_app_fresh by exact Hfresh1. simpl.
    rewrite bool_decide_eq_true_2 by reflexivity. reflexivity. }
  set (L2 := ChatApiService.update_first newId f L1).
  assert (HL2 : L2 = map reload (load raw) ++ [f (reload conv0)]).
  { unfold L2, L1. rewrite update_first_app_fresh by exact Hfresh1. simpl.
    rewrite bool_decide_eq_true_2 by reflexivity. reflexivity. }
  assert (Hf2 : find_conv newId (load (Some (stringifyD L2))) = Some (reload (f (reload conv0)))).
  { rewrite find_conv_load_stringify. unfold L2. rewrite (find_conv_update_first _ _ _ _ Hf1) by reflexivity.
    reflexivity. }
  exists (reload (f (reload conv0))), (Some (stringifyD L2)). split.
  { unfold ChatApiService.createConversation. rewrite Hm.
    unfold ChatApiService.sendMessage, ChatApiService.getConversation,
      ChatApiService.getLLMResponse, ChatApiService.loadConversations,
      ChatApiService.storeConversations, svc_bind, getItem, svc_ret, setItem.
    fold conv0. rewrite Hid. fold ai. rewrite HL1, Hf1. fold f. fold L2. rewrite Hf2. reflexivity. }
  split; [reflexivity|]. split; [reflexivity|].
  assert (Hms : messages (reload (f (reload conv0))) =
                [load_message parseDate (store_message toISOString ai)]).
  { simpl. rewrite dedup_single. reflexivity. }
  rewrite Hms. split; [reflexivity|]. split; [reflexivity|]. split; [reflexivity|].
  split; [exact Hf2|].
  rewrite ids_load_stringify, HL2, map_app, ids_map_reload. reflexivity.
Qed.

(** If the first write of [ChatApiService.createConversation(m)] is
    rejected (and the id is fresh), the call still resolves once the
    completion succeeds, with the new conversation and no messages: the
    reply is dropped and the store is left as it was. A failed completion
    makes the call throw "API request failed: ...". *)
Theorem ChatApiService_createConversation_lost_write (e : string) (w2 : option string)
    (newId : string) (now : Z) (aiId : string) (t_msg t_conv : Z) (completion : Completion)
    (m : string) (raw : Storage)
    (Hm : truthy m = true) (Hfresh : ~ In newId (map conv_id (load raw))) :
  ChatApiService.createConversation parseDate toISOString (Some e) w2 newId now aiId t_msg t_conv
    completion (Some m) raw =
  match completion with
  | CompletionOk _ =>
      Ok (mkConversation newId (conversation_title (Some m)) [] (Some now) (Some now), raw)
  | CompletionErr err => Err (ServiceError ("API request failed: " +:+ err))
  end.
Proof.
  assert (Hnone : find_conv newId (load raw) = None).
  { destruct (find_conv newId (load raw)) as [c|] eqn:Hc; [|reflexivity].
    exfalso. apply Hfresh. rewrite <- (find_conv_id _ _ _ Hc).
    clear Hfresh. induction (load raw) as [|x l IH]; simpl in *; [discriminate|].
    case_bool_decide; [injection Hc as ->; left; reflexivity | right; exact (IH Hc)]. }
  unfold ChatApiService.createConversation. rewrite Hm.
  unfold ChatApiService.sendMessage, ChatApiService.getConversation,
    ChatApiService.getLLMResponse, ChatApiService.loadConversations,
    ChatApiService.storeConversations, svc_bind, getItem, svc_ret, svc_throw, setItem.
  destruct completion as [r|err]; [|reflexivity].
  destruct (truthy newId); repeat (cbv beta iota; rewrite Hnone); reflexivity.
Qed.

(** For an id absent from the store, the ChatApiService updates throw
    "Conversation not found" and write nothing, while [sendMessage] still
    resolves with the assistant's reply and leaves the store unchanged. *)
Theorem ChatApiService_unknown_conversation (w : option string) (now : Z) (aiId : string)
    (t_msg t_conv : Z) (r content id : string) (raw : Storage)
    (Hnf : find_conv id (load raw) = None) :
  (forall t, ChatApiService.updateConversationTitle parseDate toISOString w now id t raw =
             Err (ServiceError "Conversation not found")) /\
  (forall upd, conv_id upd = id ->
     ChatApiService.updateConversation parseDate toISOString w now upd raw =
     Err (ServiceError "Conversation not found")) /\
  (forall msg, ChatApiService.addUserMessage parseDate toISOString w now msg id raw =
               Err (ServiceError "Conversation not found")) /\
  ChatApiService.sendMessage parseDate toISOString w aiId t_msg t_conv (CompletionOk r) content
    (Some id) raw = Ok (mkMessage aiId r Assistant (Some t_msg), raw).
Proof.
  unfold ChatApiService.updateConversationTitle, ChatApiService.updateConversation,
    ChatApiService.addUserMessage, ChatApiService.sendMessage, ChatApiService.getLLMResponse,
    ChatApiService.loadConversations, svc_bind, getItem, svc_ret, svc_throw.
  split; [intros t; rewrite Hnf; reflexivity|].
  split; [intros upd <-; rewrite Hnf; reflexivity|].
  split; [intros msg; rewrite Hnf; reflexivity|].
  destruct (truthy id); [rewrite Hnf|]; reflexivity.
Qed.

End ChatApiProofs.

(** * Concrete runs: witnesses and counterexamples *)

Lemma fx_conv_loads :
  In fx_conv (load_conversations parse_epoch_ms (Some (PJson fx_payload))).
Proof. vm_compute. left. reflexivity. Qed.

Lemma fx_conv_loads_after_roundtrips :
  In fx_conv (load_conversations parse_epoch_ms
                (Some (PJson (Nat.iter 2 (roundtrip parse_epoch_ms epoch_ms_string) fx_payload)))).
Proof. vm_compute. left. reflexivity. Qed.





(** C3 *)
Lemma load_conversations_no_duplicate_triples_witness :
  In fx_conv (load_conversations parse_epoch_ms (Some (PJson fx_payload))) /\
  NoDup (map msg_triple (messages fx_conv)).
Proof.
  split; [exact fx_conv_loads|].
  exact (load_conversations_no_duplicate_triples parse_epoch_ms _ _ fx_conv_loads).
Defined.

(** C4 *)
Lemma roundtrips_preserve_unique_ids_witness :
  In fx_conv (load_conversations parse_epoch_ms
                (Some (PJson (Nat.iter 2 (roundtrip parse_epoch_ms epoch_ms_string) fx_payload)))) /\
  NoDup (map msg_id (messages fx_conv)).
Proof.
  split; [exact fx_conv_loads_after_roundtrips|].
  refine (roundtrips_preserve_unique_ids parse_epoch_ms epoch_ms_string 2 fx_payload _ fx_conv
            fx_conv_loads_after_roundtrips).
  intros sc [<-|[]]. discharge.
Defined.

(** C4: a stored payload with a repeated id keeps it through the read path. *)
Lemma duplicate_ids_survive_load :
  exists c,
    In c (load_conversations parse_epoch_ms (Some (PJson fx_dup_id_payload))) /\
    ~ NoDup (map msg_id (messages c)).
Proof.
  eexists. split; [simpl; left; reflexivity|].
  vm_compute. intros Hnd. inversion Hnd as [|? ? Hm _]. apply Hm. left.
Qed.

(** C5 *)
Lemma updateConversationTitle_spec_witness :
  find_conv "c" (load_conversations parse_epoch_ms (storage fx_state)) = Some fx_conv /\
  updateConversationTitle parse_epoch_ms epoch_ms_string None 5 "c" " Renamed " (storage fx_state) =
  Ok (with_title fx_conv "Renamed" (Some 5),
      Some (stringify epoch_ms_string
              (replace_conv "c" (with_title fx_conv "Renamed" (Some 5))
                 (load_conversations parse_epoch_ms (storage fx_state))))).
Proof.
  split; [reflexivity|].
  exact (proj2 (updateConversationTitle_spec parse_epoch_ms epoch_ms_string None 5 "c" " Renamed "
                  (storage fx_state)) fx_conv eq_refl).
Defined.

(** C5: a blank title is stored (as the empty string), not rejected. *)
Lemma blank_title_accepted :
  exists c' s',
    updateConversationTitle parse_epoch_ms epoch_ms_string None 5 "c" "   " (storage fx_state)
      = Ok (c', s') /\
    title c' = ""%string.
Proof. do 2 eexists. split; [vm_compute; reflexivity | reflexivity]. Qed.

(** C6 *)
Lemma removeMessage_spec_witness :
  find_conv "c" (load_conversations parse_epoch_ms (storage fx_state)) = Some fx_conv /\
  hook_removeMessage parse_epoch_ms epoch_ms_string None 20 "c" "m0" fx_state =
  mkStoreState (replace_conv "c" (with_messages fx_conv [] (Some 20)) (conversations fx_state))
    (isLoading fx_state) (error fx_state)
    (Some (stringify epoch_ms_string
             (replace_conv "c" (with_messages fx_conv [] (Some 20))
                (load_conversations parse_epoch_ms (storage fx_state))))).
Proof.
  split; [reflexivity|].
  exact (proj2 (removeMessage_spec parse_epoch_ms epoch_ms_string None 20 "c" "m0" fx_state)
           fx_conv eq_refl).
Defined.

(** C6: removing an id that no message has still refreshes [updatedAt]. *)
Lemma remove_absent_message_touches_updatedAt :
  exists c',
    find_conv "c" (conversations (hook_removeMessage parse_epoch_ms epoch_ms_string None 20 "c"
                                   "absent" fx_state)) = Some c' /\
    messages c' = messages fx_conv /\
    updatedAt c' <> updatedAt fx_conv.
Proof. eexists. split; [vm_compute; reflexivity|]. split; [reflexivity | discriminate]. Qed.

(** C7: after a failed write the in-memory list does not show the rename
    that [updateConversation] attempted. *)
Lemma failed_write_not_applied_in_memory :
  conversations (run_op parse_epoch_ms epoch_ms_string (Some "QuotaExceededError") 5
                   (OpUpdate fx_renamed) fx_state) <>
  replace_conv "c" fx_renamed (conversations fx_state).
Proof. vm_compute. discriminate. Qed.

(** C8: the empty string counts as no initial message. *)
Lemma empty_initial_message_title :
  exists conv s',
    createConversation parse_epoch_ms epoch_ms_string None "n1" 5 (Some ""%string) None
      = Ok (conv, s') /\
    title conv = "New Conversation"%string /\ title conv <> ""%string.
Proof. do 2 eexists. split; [reflexivity|]. split; [reflexivity | discriminate]. Qed.

(** C9 *)
Lemma serialize_deserialize_valid_witness :
  valid_payload parse_epoch_ms epoch_ms_string fx_payload = true /\
  transformStoredConversations parse_epoch_ms (roundtrip parse_epoch_ms epoch_ms_string fx_payload) =
  transformStoredConversations parse_epoch_ms fx_payload.
Proof.
  split; [vm_compute; reflexivity|].
  apply serialize_deserialize_valid. vm_compute. reflexivity.
Defined.

(** C9: a payload holding the same message twice under two ids does not
    survive a round trip: the second copy is dropped. *)
Lemma duplicate_triples_lost_in_roundtrip :
  transformStoredConversations parse_epoch_ms
    (roundtrip parse_epoch_ms epoch_ms_string fx_dup_triple_payload) <>
  transformStoredConversations parse_epoch_ms fx_dup_triple_payload.
Proof. vm_compute. intros Heq. inversion Heq. Qed.

(** ** C10: the string key of the dedup step is ambiguous *)

(** C10 (code_bug): [fx_neg] and [fx_pos] have different (role, content,
    timestamp) triples, yet both get the key "user-a--5", so the read-path
    dedup drops [fx_pos] although its triple occurs only once. *)
Theorem dedup_key_collision_drops_message :
  msg_triple fx_neg <> msg_triple fx_pos /\
  dedup_key fx_neg = dedup_key fx_pos /\
  deduplicateMessages [fx_neg; fx_pos] = [fx_neg].
Proof.
  split; [discriminate|]. split; vm_compute; reflexivity.
Qed.

(** ** Witnesses of the further properties *)

Lemma validateMessage_trimmed_content_witness :
  validateMessage " hi " = true /\
  (0 < String.length (trim " hi "))%nat /\ Z.of_nat (String.length (trim " hi ")) <= 10000 /\
  trim (trim " hi ") = trim " hi ".
Proof.
  split; [vm_compute; reflexivity|].
  apply validateMessage_trimmed_content. vm_compute. reflexivity.
Defined.

Lemma handleSaveEdit_rename_witness :
  handleSaveEdit fx_sidebar = (mkSidebarState None "", Some ("c"%string, "Renamed chat"%string)) /\
  "Renamed chat"%string = sanitizeInput (editTitle fx_sidebar) /\
  updateConversationTitle parse_epoch_ms epoch_ms_string None 5 "c" "Renamed chat" (storage fx_state) =
  Ok (with_title fx_conv "Renamed chat" (Some 5),
      Some (stringify epoch_ms_string
              (replace_conv "c" (with_title fx_conv "Renamed chat" (Some 5))
                 (load_conversations parse_epoch_ms (storage fx_state))))).
Proof.
  assert (H : handleSaveEdit fx_sidebar =
              (mkSidebarState None "", Some ("c"%string, "Renamed chat"%string)))
    by (vm_compute; reflexivity).
  destruct (handleSaveEdit_rename _ _ _ _ H) as (_ & _ & Ht & _ & _ & Hu).
  split; [exact H|]. split; [exact Ht|]. apply Hu. reflexivity.
Defined.

Lemma handleSend_sends_witness :
  handleSend false "  hi   there " = (""%string, Some "hi there"%string) /\
  validateMessage "hi there" = true /\ single_spaced false "hi there" = true.
Proof.
  assert (H : handleSend false "  hi   there " = (""%string, Some "hi there"%string))
    by (vm_compute; reflexivity).
  destruct (handleSend_sends _ _ _ _ H) as (_ & _ & _ & Hv & _ & Hs).
  split; [exact H|]. split; [exact Hv | exact Hs].
Defined.

Lemma updateConversationTitle_read_back_witness :
  find_conv "c" (load_conversations parse_epoch_ms (storage fx_state)) = Some fx_conv /\
  exists c' s',
    updateConversationTitle parse_epoch_ms epoch_ms_string None 5 "c" " Renamed " (storage fx_state)
      = Ok (c', s') /\
    map conv_id (load_conversations parse_epoch_ms s') =
    map conv_id (load_conversations parse_epoch_ms (storage fx_state)) /\
    exists c'', find_conv "c" (load_conversations parse_epoch_ms s') = Some c'' /\
                title c'' = trim " Renamed ".
Proof.
  split; [reflexivity|].
  exact (updateConversationTitle_read_back parse_epoch_ms epoch_ms_string 5 "c" " Renamed "
           (storage fx_state) fx_conv eq_refl).
Defined.

Lemma removeMessage_read_back_witness :
  find_conv "c" (load_conversations parse_epoch_ms (storage fx_state)) = Some fx_conv /\
  exists c' s',
    removeMessageFromConversation parse_epoch_ms epoch_ms_string None 20 "c" "m0" (storage fx_state)
      = Ok (Some c', s') /\
    map conv_id (load_conversations parse_epoch_ms s') =
    map conv_id (load_conversations parse_epoch_ms (storage fx_state)) /\
    exists c'', find_conv "c" (load_conversations parse_epoch_ms s') = Some c'' /\
                ~ In "m0"%string (map msg_id (messages c'')).
Proof.
  split; [reflexivity|].
  exact (removeMessage_read_back parse_epoch_ms epoch_ms_string 20 "c" "m0"
           (storage fx_state) fx_conv eq_refl).
Defined.


Lemma StorageService_save_then_get_witness :
  forallb (StorageService.conversation_dates_roundtrip parse_epoch_ms epoch_ms_string)
    [fx_conv; fx_conv] = true /\
  exists s',
    StorageService.saveConversations epoch_ms_string None [fx_conv; fx_conv] None = Ok (tt, s') /\
    StorageService.getConversations parse_epoch_ms s' = Ok ([fx_conv; fx_conv], s') /\
    forall id, StorageService.getConversation parse_epoch_ms id s' =
               Ok (find_conv id [fx_conv; fx_conv], s').
Proof.
  assert (Hd : forallb (StorageService.conversation_dates_roundtrip parse_epoch_ms epoch_ms_string)
                 [fx_conv; fx_conv] = true) by (vm_compute; reflexivity).
  split; [exact Hd|].
  exact (StorageService_save_then_get parse_epoch_ms epoch_ms_string [fx_conv; fx_conv] None Hd).
Defined.

Lemma StorageService_save_rejects_invalid_date_witness :
  createdAt fx_bad = None /\
  StorageService.saveConversations epoch_ms_string None [fx_conv; fx_bad] (storage fx_state) =
  Err (ServiceError "Failed to save conversations").
Proof.
  split; [reflexivity|].
  apply (StorageService_save_rejects_invalid_date epoch_ms_string None [fx_conv; fx_bad]
           (storage fx_state) fx_bad).
  - right. left. reflexivity.
  - left. reflexivity.
Defined.


Lemma ChatApiService_createConversation_with_reply_witness :
  truthy "hi" = true /\ truthy "n1" = true /\
  ~ In "n1"%string (map conv_id (load_conversations parse_epoch_ms (storage fx_state))) /\
  exists conv s',
    ChatApiService.createConversation parse_epoch_ms epoch_ms_string None None "n1" 5 "a1" 6 7
      (CompletionOk "yo") (Some "hi"%string) (storage fx_state) = Ok (conv, s') /\
    map content (messages conv) = ["yo"%string] /\
    map conv_id (load_conversations parse_epoch_ms s') = ["c"%string; "n1"%string].
Proof.
  assert (Hf : ~ In "n1"%string (map conv_id (load_conversations parse_epoch_ms (storage fx_state))))
    by (simpl; intuition discriminate).
  split; [reflexivity|]. split; [reflexivity|]. split; [exact Hf|].
  destruct (ChatApiService_createConversation_with_reply parse_epoch_ms epoch_ms_string "n1" 5 "a1"
              6 7 "yo" "hi" (storage fx_state) eq_refl eq_refl Hf)
    as (conv & s' & Hr & _ & _ & _ & Hc & _ & _ & Hids).
  exists conv, s'. split; [exact Hr|]. split; [exact Hc|]. rewrite Hids. reflexivity.
Defined.

Lemma ChatApiService_createConversation_lost_write_witness :
  truthy "hi" = true /\
  ~ In "n1"%string (map conv_id (load_conversations parse_epoch_ms (storage fx_state))) /\
  ChatApiService.createConversation parse_epoch_ms epoch_ms_string (Some "QuotaExceededError") None
    "n1" 5 "a1" 6 7 (CompletionOk "yo") (Some "hi"%string) (storage fx_state) =
  Ok (mkConversation "n1" (conversation_title (Some "hi"%string)) [] (Some 5) (Some 5),
      storage fx_state).
Proof.
  assert (Hf : ~ In "n1"%string (map conv_id (load_conversations parse_epoch_ms (storage fx_state))))
    by (simpl; intuition discriminate).
  split; [reflexivity|]. split; [exact Hf|].
  exact (ChatApiService_createConversation_lost_write parse_epoch_ms epoch_ms_string
           "QuotaExceededError" None "n1" 5 "a1" 6 7 (CompletionOk "yo") "hi" (storage fx_state)
           eq_refl Hf).
Defined.

Lemma ChatApiService_unknown_conversation_witness :
  find_conv "zz" (load_conversations parse_epoch_ms (storage fx_state)) = None /\
  ChatApiService.updateConversationTitle parse_epoch_ms epoch_ms_string None 5 "zz" "T"
    (storage fx_state) = Err (ServiceError "Conversation not found") /\
  ChatApiService.sendMessage parse_epoch_ms epoch_ms_string None "a1" 6 7 (CompletionOk "yo") "hi"
    (Some "zz"%string) (storage fx_state) =
  Ok (mkMessage "a1" "yo" Assistant (Some 6), storage fx_state).
Proof.
  destruct (ChatApiService_unknown_conversation parse_epoch_ms epoch_ms_string None 5 "a1" 6 7 "yo"
              "hi" "zz" (storage fx_state) eq_refl) as (Ht & _ & _ & Hs).
  split; [reflexivity|]. split; [apply Ht | exact Hs].
Defined.
